(** * kv-ee-telegram-bot: filter engine, seen-set store, registry, fetch cycle
      and notification dispatch

    A shallow embedding of [kv_scraper.py], [database.py] and
    [telegram_bot.py], with the properties of the change-detection and
    dispatch engine stated over it.

    Conventions of the embedding.
    - Python [int] is [Z]; Python [float] is [Q]: the only float operations
      of the modelled code are the comparisons [<], [>] and the truth test,
      which on finite floats agree with the rationals they denote (an [int]
      compared with a [float] is compared exactly as well).  The scraper
      only produces finite non-negative areas.
    - A [dict] with string keys is a [gmap string _]; the subscriber table
      of the bot, whose iteration order matters for dispatch, is an
      association list in insertion order.
    - An [Optional[...]] field is an [option]; Python's truth test on it is
      written out ([None], [0] and [0.0] are false).
    - Annotated types are taken at their word: [notification_mode] is a
      [NotificationMode], [filters] is a dictionary of numbers.
    - Coroutines run to completion one at a time; [try]/[except] and the
      state a raised exception leaves behind are explicit in a state and
      exception monad.  The only call that raises in the modelled code is
      [send_message]; the listing source reports its own failures as an
      empty result.
    - The two [_save_*] methods write files and swallow their errors; they
      leave the objects as they are and are modelled as such. *)

From Stdlib Require Import ZArith QArith Lia.
From stdpp Require Import gmap strings list fin_maps sorting pretty.

#[local] Open Scope Z_scope.

(** ** kv_scraper.py: the listing record and the listing source *)

Record Coordinates := { lat : Q; lon : Q }.

Module PropertyData.
Record t := mk {
  id : Z;
  url : string;
  price : Z;
  rooms : option Z;
  area : option Q;
  year_built : option Z;
  condition : option Z;
  story : option Z;
  energy_label : option string;
  cost_summer : option Z;
  cost_winter : option Z;
  coordinates : option Coordinates;
  description : option string
}.

(** Functional update of the fields the filter reads. *)
Definition with_price (p : Z) (l : t) : t :=
  mk (id l) (url l) p (rooms l) (area l) (year_built l) (condition l)
     (story l) (energy_label l) (cost_summer l) (cost_winter l)
     (coordinates l) (description l).
Definition with_rooms (r : option Z) (l : t) : t :=
  mk (id l) (url l) (price l) r (area l) (year_built l) (condition l)
     (story l) (energy_label l) (cost_summer l) (cost_winter l)
     (coordinates l) (description l).
Definition with_area (a : option Q) (l : t) : t :=
  mk (id l) (url l) (price l) (rooms l) a (year_built l) (condition l)
     (story l) (energy_label l) (cost_summer l) (cost_winter l)
     (coordinates l) (description l).
End PropertyData.
Abbreviation PropertyData := PropertyData.t.

(** A listing with only the mandatory fields and those the filter reads. *)
Definition listing (i p : Z) (r : option Z) (a : option Q) : PropertyData :=
  PropertyData.mk i "" p r a None None None None None None None None.

(** ** Python comparisons and truth tests *)

(** [x < y] and [x > y] on numbers. *)
Definition num_lt (x y : Q) : bool := negb (Qle_bool y x).
Definition num_gt (x y : Q) : bool := num_lt y x.

(** [bool(x)] for an [Optional[int]] and an [Optional[float]]. *)
Definition truthy_int (x : option Z) : bool :=
  match x with
  | None => false
  | Some z => negb (z =? 0)
  end.

Definition truthy_float (x : option Q) : bool :=
  match x with
  | None => false
  | Some q => negb (Qeq_bool q 0)
  end.

(** ** telegram_bot.py: the filter engine *)

(** A subscriber's [filters]: filter key to threshold. *)
Abbreviation Filters := (gmap string Q).

(** [key in filters and value < filters[key]], [value] an [int] or a
    [float] already known to be present. *)
Definition below_bound (filters : Filters) (key : string) (value : Q) : bool :=
  match filters !! key with
  | Some bound => num_lt value bound
  | None => false
  end.

Definition above_bound (filters : Filters) (key : string) (value : Q) : bool :=
  match filters !! key with
  | Some bound => num_gt value bound
  | None => false
  end.

(** [key in filters and field and field < filters[key]] for an optional
    field: the truth test of the field comes before the comparison. *)
Definition int_below (filters : Filters) (key : string) (field : option Z) : bool :=
  match filters !! key with
  | None => false
  | Some bound =>
      truthy_int field
      && match field with Some z => num_lt (inject_Z z) bound | None => false end
  end.

Definition int_above (filters : Filters) (key : string) (field : option Z) : bool :=
  match filters !! key with
  | None => false
  | Some bound =>
      truthy_int field
      && match field with Some z => num_gt (inject_Z z) bound | None => false end
  end.

Definition float_below (filters : Filters) (key : string) (field : option Q) : bool :=
  match filters !! key with
  | None => false
  | Some bound =>
      truthy_float field
      && match field with Some q => num_lt q bound | None => false end
  end.

Definition float_above (filters : Filters) (key : string) (field : option Q) : bool :=
  match filters !! key with
  | None => false
  | Some bound =>
      truthy_float field
      && match field with Some q => num_gt q bound | None => false end
  end.

(** The body of the loop of [_filter_listings]: the flag [match] starts
    true and each failing bound clears it. *)
Definition listing_matches (filters : Filters) (l : PropertyData) : bool :=
  let match_ := true in
  let match_ :=
    if below_bound filters "price_min" (inject_Z (PropertyData.price l))
    then false else match_ in
  let match_ :=
    if above_bound filters "price_max" (inject_Z (PropertyData.price l))
    then false else match_ in
  let match_ :=
    if float_below filters "area_min" (PropertyData.area l)
    then false else match_ in
  let match_ :=
    if float_above filters "area_max" (PropertyData.area l)
    then false else match_ in
  let match_ :=
    if int_below filters "rooms_min" (PropertyData.rooms l)
    then false else match_ in
  let match_ :=
    if int_above filters "rooms_max" (PropertyData.rooms l)
    then false else match_ in
  match_.

Definition _filter_listings (listings : list PropertyData) (filters : Filters)
  : list PropertyData :=
  List.filter (listing_matches filters) listings.

(** The two price tests of [listing_matches] taken on their own. *)
Definition price_check (filters : Filters) (p : Z) : bool :=
  negb (below_bound filters "price_min" (inject_Z p))
  && negb (above_bound filters "price_max" (inject_Z p)).

(** ** kv_scraper.py: what one call of the listing source yields *)

(** The outcome of [session.get(search_url)] and of parsing the page:
    either something inside the [try] raised, or a response came back with
    its [ok] flag and, for each ["object-item"] row of the page, what
    [_parse_listing_data] returned for it. *)
Inductive SearchOutcome :=
| Raised
| Responded (ok : bool) (rows : list (option PropertyData)).

(** [KVeeScraper.get_owner_direct_listings]: a raised exception and a
    response that is not [ok] both give the empty list; otherwise the rows
    that parsed, in page order. *)
Definition get_owner_direct_listings (o : SearchOutcome) : list PropertyData :=
  match o with
  | Raised => []
  | Responded false _ => []
  | Responded true rows => omap (λ listing_data, listing_data) rows
  end.

(** A listing source failure: a transport error or a non-success response. *)
Definition source_failed (o : SearchOutcome) : bool :=
  match o with
  | Raised => true
  | Responded ok _ => negb ok
  end.

(** ** database.py *)

(** [l[-n:]] for a positive [n]: the last [n] elements, the whole list when
    it is shorter. *)
Definition last_n {A} (n : Z) (l : list A) : list A :=
  drop (Z.to_nat (Z.of_nat (length l) - n)) l.

(** The values of a preferences dictionary. *)
Inductive PyValue :=
| PyNone
| PyBool (b : bool)
| PyInt (z : Z)
| PyFloat (q : Q)
| PyStr (s : string)
| PyDict (d : gmap string Q).

Abbreviation Preferences := (gmap string PyValue).

(** [str(chat_id)], the key of the users dictionary. *)
Definition str (chat_id : Z) : string := pretty chat_id.

(** What reading one of the two JSON documents gives: the file is not
    there, or opening or decoding it raises, or it holds a value. *)
Inductive File (A : Type) :=
| Absent
| Unreadable
| Holds (content : A).
Arguments Absent {A}.
Arguments Unreadable {A}.
Arguments Holds {A} content.

Module Database.
Record t := mk {
  users : gmap string Preferences;
  seen_listings : gset Z
}.

(** [_save_data] rewrites the two JSON documents and swallows every
    error; the attributes of the object are left as they are. *)
Definition _save_data (db : t) : t := db.

Definition add_user (chat_id : Z) (preferences : Preferences) (db : t) : t :=
  _save_data (mk (<[str chat_id := preferences]> (users db)) (seen_listings db)).

Definition get_user (chat_id : Z) (db : t) : option Preferences :=
  users db !! str chat_id.

(** [dict.update]: the keys of [preferences] win over the stored ones.
    The program updates the stored dictionary object in place, and
    [add_user] stores the object it is given: the map below holds, under
    each key, the value of the object stored there, and follows the update
    under the key [str chat_id] only.  An object stored under a second key
    as well would show the update there too; statements about
    [update_user] are therefore about the key it updates. *)
Definition update_user (chat_id : Z) (preferences : Preferences) (db : t) : t :=
  match users db !! str chat_id with
  | Some stored =>
      _save_data (mk (<[str chat_id := preferences ∪ stored]> (users db))
                     (seen_listings db))
  | None => db
  end.

Definition delete_user (chat_id : Z) (db : t) : t :=
  match users db !! str chat_id with
  | Some _ => _save_data (mk (delete (str chat_id) (users db)) (seen_listings db))
  | None => db
  end.

Definition is_seen (listing_id : Z) (db : t) : bool :=
  bool_decide (listing_id ∈ seen_listings db).

(** [_load_data]: each document that exists replaces the attribute; an
    exception at either document resets both attributes. *)
Definition _load_data (users_file : File (gmap string Preferences))
    (seen_file : File (list Z)) (db : t) : t :=
  match users_file with
  | Unreadable => mk ∅ ∅
  | _ =>
      let db :=
        match users_file with
        | Holds content => mk content (seen_listings db)
        | _ => db
        end in
      match seen_file with
      | Unreadable => mk ∅ ∅
      | Holds content => mk (users db) (list_to_set content)
      | Absent => db
      end
  end.

(** [__init__]: both attributes start empty, then [_load_data]. *)
Definition __init__ (users_file : File (gmap string Preferences))
    (seen_file : File (list Z)) : t :=
  _load_data users_file seen_file (mk ∅ ∅).

Section set_iteration.
(** [list(s)] for a set [s]: the language leaves the order in which a
    set is iterated to the implementation. *)
Variable list_of_set : gset Z → list Z.

Definition mark_seen (listing_id : Z) (db : t) : t :=
  let seen := {[listing_id]} ∪ seen_listings db in
  let seen :=
    if 10000 <? Z.of_nat (size seen)
    then list_to_set (last_n 10000 (list_of_set seen))
    else seen in
  _save_data (mk (users db) seen).

(** [cleanup_old_seen]: [days] is not used. *)
Definition cleanup_old_seen (days : Z) (db : t) : t :=
  if 10000 <? Z.of_nat (size (seen_listings db))
  then _save_data
         (mk (users db)
             (list_to_set (last_n 10000 (list_of_set (seen_listings db)))))
  else db.

(** The two documents as [_save_data] writes them when no write fails:
    [self.users], and [list(self.seen_listings)]. *)
Definition written_users (db : t) : File (gmap string Preferences) :=
  Holds (users db).
Definition written_seen (db : t) : File (list Z) :=
  Holds (list_of_set (seen_listings db)).
End set_iteration.
End Database.

(** What makes a function an iteration order: it lists the members of the
    set, each once. *)
Definition iteration_order (list_of_set : gset Z → list Z) : Prop :=
  ∀ s, list_of_set s ≡ₚ elements s.

(** Ascending order. CPython stores an [int] [i] with [0 <= i] below the
    table size in slot [i] when that slot is free, and iterates the table
    by slot: a set of small non-negative integers built without collisions
    is iterated in ascending order. *)
Definition ascending (s : gset Z) : list Z := merge_sort Z.le (elements s).

(** The set [{1, ..., 10000}]. *)
Definition full_seen_set : gset Z := list_to_set (seqZ 1 10000).

(** ** telegram_bot.py: subscribers, state and effects *)

Inductive NotificationMode := IMMEDIATE | DAILY | WEEKLY.

#[export] Instance NotificationMode_eq_dec : EqDecision NotificationMode.
Proof. solve_decision. Defined.

Record UserPreferences := {
  chat_id : Z;
  notification_mode : NotificationMode;
  last_notification : option Z;
  filters : Filters;
  subscribed : bool
}.

(** [UserPreferences(chat_id=chat_id, notification_mode=IMMEDIATE,
    filters={})]: the remaining fields take their dataclass defaults. *)
Definition new_user (c : Z) : UserPreferences :=
  {| chat_id := c; notification_mode := IMMEDIATE; last_notification := None;
     filters := ∅; subscribed := true |}.

Definition with_last_notification (now : Z) (prefs : UserPreferences)
  : UserPreferences :=
  {| chat_id := chat_id prefs; notification_mode := notification_mode prefs;
     last_notification := Some now; filters := filters prefs;
     subscribed := subscribed prefs |}.

(** The users dictionary of the bot, in insertion order. *)
Abbreviation Users := (list (Z * UserPreferences)).

Fixpoint dict_get (c : Z) (d : Users) : option UserPreferences :=
  match d with
  | [] => None
  | (k, v) :: d' => if decide (k = c) then Some v else dict_get c d'
  end.

(** [d[c] = v]: in place for a key already there, at the end otherwise. *)
Fixpoint dict_set (c : Z) (v : UserPreferences) (d : Users) : Users :=
  match d with
  | [] => [(c, v)]
  | (k, w) :: d' => if decide (k = c) then (k, v) :: d' else (k, w) :: dict_set c v d'
  end.

(** Mutation of the object stored under key [c]. *)
Definition dict_alter (f : UserPreferences → UserPreferences) (c : Z) (d : Users)
  : Users :=
  (λ kv, if decide (kv.1 = c) then (kv.1, f kv.2) else kv) <$> d.

(** What goes over the messaging channel: the text is determined by the
    listings it is formatted from. *)
Inductive Message :=
| NewListing (l : PropertyData)
| DailyUpdate (shown : list PropertyData) (found : nat)
| WeeklyUpdate (shown : list PropertyData) (found : nat).

Inductive Exception :=
| DeliveryError (c : Z) (m : Message).

Inductive LogRecord :=
| ErrorCheckingNewListings (e : Exception)
| ErrorSendingNotification (c : Z) (e : Exception)
| ErrorSendingDaily (e : Exception)
| ErrorSendingWeekly (e : Exception).

Module TelegramBot.
(** The attributes of the bot the dispatch engine uses, and its
    surroundings: whether the messaging channel accepts a given message for
    a given chat ([false]: [send_message] raises), the reading of
    [datetime.now()] during the run, what was delivered and what was
    logged. *)
Record t := mk {
  users : Users;
  seen_listings : gset Z;
  notifications_enabled : bool;
  channel : Z → Message → bool;
  clock : Z;
  outbox : list (Z * Message);
  log : list LogRecord
}.

Definition set_users (us : Users) (s : t) : t :=
  mk us (seen_listings s) (notifications_enabled s) (channel s) (clock s)
     (outbox s) (log s).
Definition set_seen_listings (seen : gset Z) (s : t) : t :=
  mk (users s) seen (notifications_enabled s) (channel s) (clock s)
     (outbox s) (log s).
Definition set_outbox (o : list (Z * Message)) (s : t) : t :=
  mk (users s) (seen_listings s) (notifications_enabled s) (channel s)
     (clock s) o (log s).
Definition set_log (l : list LogRecord) (s : t) : t :=
  mk (users s) (seen_listings s) (notifications_enabled s) (channel s)
     (clock s) (outbox s) l.

(** Computations over the bot: they end in a value or in a raised
    exception, and keep the state reached either way. *)
Definition M (A : Type) : Type := t → (Exception + A) * t.

Definition ret {A} (a : A) : M A := λ s, (inr a, s).

Definition bind {A B} (m : M A) (k : A → M B) : M B :=
  λ s, match m s with
       | (inr a, s') => k a s'
       | (inl e, s') => (inl e, s')
       end.

Definition raise {A} (e : Exception) : M A := λ s, (inl e, s).

(** [try: body except Exception as e: handler]. *)
Definition try_except {A} (body : M A) (handler : Exception → M A) : M A :=
  λ s, match body s with
       | (inl e, s') => handler e s'
       | r => r
       end.

Definition gets {A} (f : t → A) : M A := λ s, (inr (f s), s).
Definition modify (f : t → t) : M unit := λ s, (inr tt, f s).
End TelegramBot.

#[export] Instance TelegramBot_ret : MRet TelegramBot.M := @TelegramBot.ret.
#[export] Instance TelegramBot_bind : MBind TelegramBot.M :=
  λ A B k m, TelegramBot.bind m k.

(** [for x in l: body]. *)
Fixpoint for_each {A} (l : list A) (body : A → TelegramBot.M unit)
  : TelegramBot.M unit :=
  match l with
  | [] => mret tt
  | x :: l' => body x ;; for_each l' body
  end.

(** [not l] for a list. *)
Definition is_empty {A} (l : list A) : bool :=
  match l with [] => true | _ => false end.

Section bot.
Import TelegramBot.

(** [_save_users] rewrites [users.json] and swallows every error. *)
Definition _save_users : M unit := mret tt.

(** [logger.error(...)]. *)
Definition logger_error (r : LogRecord) : M unit :=
  modify (λ s, set_log (log s ++ [r]) s).

(** [await self.bot.send_message(chat_id, text, ...)]: the message is
    delivered, or the call raises and nothing is delivered. *)
Definition send_message (c : Z) (m : Message) : M unit :=
  λ s, if channel s c m
       then (inr tt, set_outbox (outbox s ++ [(c, m)]) s)
       else raise (DeliveryError c m) s.

(** [cmd_start], up to the reply: a chat that is not in [users] gets a
    fresh record, a chat that is there is left alone. *)
Definition cmd_start (c : Z) : M unit :=
  us ← gets users;
  match dict_get c us with
  | None => modify (set_users (dict_set c (new_user c) us)) ;; _save_users
  | Some _ => mret tt
  end.

(** The body of the loop of [_send_notifications], for the entry
    [chat_id, prefs] of the users dictionary. *)
Definition notify_subscriber (listings : list PropertyData) (c : Z)
    (prefs : UserPreferences) : M unit :=
  if negb (subscribed prefs) then mret tt
  else
    try_except
      (let filtered_listings := _filter_listings listings (filters prefs) in
       if is_empty filtered_listings then mret tt
       else
         for_each filtered_listings (λ l, send_message c (NewListing l)) ;;
         now ← gets clock;
         modify (λ s, set_users
                        (dict_alter (with_last_notification now) c (users s)) s))
      (λ e, logger_error (ErrorSendingNotification c e)).

(** [_send_notifications]. *)
Definition _send_notifications (listings : list PropertyData) : M unit :=
  us ← gets users;
  for_each us (λ '(c, prefs), notify_subscriber listings c prefs) ;;
  _save_users.

(** The loop of [_check_new_listings] over the fetched listings. *)
Fixpoint collect_new (listings new_listings : list PropertyData)
  : M (list PropertyData) :=
  match listings with
  | [] => mret new_listings
  | l :: listings' =>
      seen ← gets seen_listings;
      if decide (PropertyData.id l ∈ seen) then collect_new listings' new_listings
      else
        modify (set_seen_listings ({[PropertyData.id l]} ∪ seen)) ;;
        collect_new listings' (new_listings ++ [l])
  end.

(** [_check_new_listings], the fetch cycle; [o] is what the listing
    source does when it is called. *)
Definition _check_new_listings (o : SearchOutcome) : M (list PropertyData) :=
  try_except
    (let listings := get_owner_direct_listings o in
     new_listings ← collect_new listings [];
     enabled ← gets notifications_enabled;
     (if negb (is_empty new_listings) && enabled
      then _send_notifications new_listings else mret tt) ;;
     mret new_listings)
    (λ e, logger_error (ErrorCheckingNewListings e) ;; mret []).

(** The body of the loop of [_send_daily_notifications]. *)
Definition daily_summary (listings : list PropertyData) (c : Z)
    (prefs : UserPreferences) : M unit :=
  if negb (subscribed prefs)
     || negb (bool_decide (notification_mode prefs = DAILY))
  then mret tt
  else
    let filtered_listings := _filter_listings listings (filters prefs) in
    if is_empty filtered_listings then mret tt
    else send_message c (DailyUpdate (take 5 filtered_listings)
                                     (length filtered_listings)).

(** [_send_daily_notifications]: one [try] around the fetch and the
    whole loop. *)
Definition _send_daily_notifications (o : SearchOutcome) : M unit :=
  enabled ← gets notifications_enabled;
  if negb enabled then mret tt
  else
    try_except
      (listings ← _check_new_listings o;
       if is_empty listings then mret tt
       else
         us ← gets users;
         for_each us (λ '(c, prefs), daily_summary listings c prefs))
      (λ e, logger_error (ErrorSendingDaily e)).

(** The body of the loop of [_send_weekly_notifications]. *)
Definition weekly_summary (listings : list PropertyData) (c : Z)
    (prefs : UserPreferences) : M unit :=
  if negb (subscribed prefs)
     || negb (bool_decide (notification_mode prefs = WEEKLY))
  then mret tt
  else
    let filtered_listings := _filter_listings listings (filters prefs) in
    if is_empty filtered_listings then mret tt
    else send_message c (WeeklyUpdate (take 10 filtered_listings)
                                      (length filtered_listings)).

(** [_send_weekly_notifications]. *)
Definition _send_weekly_notifications (o : SearchOutcome) : M unit :=
  enabled ← gets notifications_enabled;
  if negb enabled then mret tt
  else
    try_except
      (listings ← _check_new_listings o;
       if is_empty listings then mret tt
       else
         us ← gets users;
         for_each us (λ '(c, prefs), weekly_summary listings c prefs))
      (λ e, logger_error (ErrorSendingWeekly e)).

(** The three jobs of the scheduler: [_check_new_listings] every 15
    minutes, the daily job at 09:00, the weekly job on Monday 09:00. *)
Inductive Cadence := Interval | DailyCron | WeeklyCron.

Definition fire (job : Cadence) (o : SearchOutcome) : M unit :=
  match job with
  | Interval => _check_new_listings o ;; mret tt
  | DailyCron => _send_daily_notifications o
  | WeeklyCron => _send_weekly_notifications o
  end.
End bot.

(** ** telegram_bot.py: the commands that change the registry *)

(** [del d[c]]. *)
Fixpoint dict_del (c : Z) (d : Users) : Users :=
  match d with
  | [] => []
  | (k, v) :: d' => if decide (k = c) then dict_del c d' else (k, v) :: dict_del c d'
  end.

Definition with_subscribed (b : bool) (prefs : UserPreferences)
  : UserPreferences :=
  {| chat_id := chat_id prefs; notification_mode := notification_mode prefs;
     last_notification := last_notification prefs; filters := filters prefs;
     subscribed := b |}.

(** The texts a command replies with. *)
Inductive Reply :=
| CheckingForNewListings
| FoundNewListings (n : nat)
| NoNewListingsFound.

Section bot_commands.
Import TelegramBot.

(** [cmd_subscribe], up to the reply. *)
Definition cmd_subscribe (c : Z) : M unit :=
  us ← gets users;
  match dict_get c us with
  | None => modify (set_users (dict_set c (new_user c) us)) ;; _save_users
  | Some _ => mret tt
  end ;;
  modify (λ s, set_users (dict_alter (with_subscribed true) c (users s)) s) ;;
  _save_users.

(** [cmd_unsubscribe], up to the reply. *)
Definition cmd_unsubscribe (c : Z) : M unit :=
  us ← gets users;
  match dict_get c us with
  | Some _ =>
      modify (λ s, set_users (dict_alter (with_subscribed false) c (users s)) s) ;;
      _save_users
  | None => mret tt
  end.

(** [cmd_stop], up to the reply. *)
Definition cmd_stop (c : Z) : M unit :=
  us ← gets users;
  match dict_get c us with
  | Some _ => modify (set_users (dict_del c us)) ;; _save_users
  | None => mret tt
  end.

(** [cmd_notify]: the value is the replies it sends, in order. *)
Definition cmd_notify (o : SearchOutcome) : M (list Reply) :=
  new_listings ← _check_new_listings o;
  if negb (is_empty new_listings)
  then mret [CheckingForNewListings; FoundNewListings (length new_listings)]
  else mret [CheckingForNewListings; NoNewListingsFound].
End bot_commands.

(** ** kv_scraper.py: the search URL and [to_dict] *)

Inductive DealType := SALE | RENT.
Inductive PropertyType := APARTMENT | HOUSE | ROW_HOUSE | COMMERCIAL | LAND.

(** The [value] of the members of the two enumerations. *)
Definition DealType_value (d : DealType) : Z :=
  match d with SALE => 3 | RENT => 2 end.

Definition PropertyType_value (p : PropertyType) : Z :=
  match p with
  | APARTMENT => 1 | HOUSE => 2 | ROW_HOUSE => 3 | COMMERCIAL => 4 | LAND => 5
  end.

(** A number passed as a bound: an [int] or a [float]. *)
Inductive Number := Int (z : Z) | Float (q : Q).

(** [bool(x)] for an optional number. *)
Definition truthy_number (x : option Number) : bool :=
  match x with
  | None => false
  | Some (Int z) => negb (z =? 0)
  | Some (Float q) => negb (Qeq_bool q 0)
  end.

(** The items of a list-valued parameter: integers and strings. *)
Inductive Atom := AInt (z : Z) | AStr (s : string).

(** [f"{item}"]. *)
Definition format_atom (a : Atom) : string :=
  match a with AInt z => pretty z | AStr s => s end.

(** The values of the [params] dictionary. *)
Inductive ParamValue :=
| VInt (z : Z)
| VFloat (q : Q)
| VStr (s : string)
| VList (items : list Atom)
| VDealType (d : DealType)
| VPropertyType (p : PropertyType).

(** The [params] dictionary, in insertion order. *)
Abbreviation Params := (list (string * ParamValue)).

Fixpoint params_get (key : string) (params : Params) : option ParamValue :=
  match params with
  | [] => None
  | (k, v) :: params' => if decide (k = key) then Some v else params_get key params'
  end.

(** [params[key] = v]. *)
Fixpoint params_set (key : string) (v : ParamValue) (params : Params) : Params :=
  match params with
  | [] => [(key, v)]
  | (k, w) :: params' =>
      if decide (k = key) then (k, v) :: params'
      else (k, w) :: params_set key v params'
  end.

Module KVeeScraper.
Definition BASE_URL : string := "https://www.kv.ee".
Definition SEARCH_URL : string :=
  BASE_URL +:+ "/?act=search.simple&search_type=new&page_size=100".

(** The inner loop of [_build_search_url] over a list value, [n] the
    index [enumerate] has reached. *)
Fixpoint add_items (url key : string) (n : nat) (items : list Atom) : string :=
  match items with
  | [] => url
  | item :: items' =>
      add_items (url +:+ "&" +:+ key +:+ "%5B" +:+ pretty n +:+ "%5D="
                     +:+ format_atom item)
        key (S n) items'
  end.

(** One round of the loop of [_build_search_url]: a value that is neither
    an [int], a [str] nor a [list] adds nothing. *)
Definition add_param (url : string) (kv : string * ParamValue) : string :=
  match kv.2 with
  | VInt z => url +:+ "&" +:+ kv.1 +:+ "=" +:+ pretty z
  | VStr v => url +:+ "&" +:+ kv.1 +:+ "=" +:+ v
  | VList items => add_items url kv.1 0 items
  | _ => url
  end.

Definition _build_search_url (params : Params) : string :=
  let params :=
    match params_get "deal_type" params with
    | Some (VDealType d) => params_set "deal_type" (VInt (DealType_value d)) params
    | _ => params
    end in
  let params :=
    match params_get "property_type" params with
    | Some (VPropertyType t) =>
        params_set "property_type" (VInt (PropertyType_value t)) params
    | _ => params
    end in
  foldl add_param SEARCH_URL params.

(** The arguments of [get_owner_direct_listings]. *)
Record SearchArgs := {
  county : Z;
  deal_type : DealType;
  property_type : option PropertyType;
  price_min : option Z;
  price_max : option Z;
  area_min : option Number;
  area_max : option Number;
  rooms_min : option Z;
  rooms_max : option Z;
  page_size : Z
}.

Definition number_value (x : Number) : ParamValue :=
  match x with Int z => VInt z | Float q => VFloat q end.

(** The [params] dictionary [get_owner_direct_listings] builds. *)
Definition search_params (a : SearchArgs) : Params :=
  let params :=
    [("deal_type", VDealType (deal_type a)); ("county", VInt (county a));
     ("page_size", VInt (page_size a)); ("only_private_users", VInt 1)] in
  let params :=
    match property_type a with
    | Some t => params_set "property_type" (VPropertyType t) params
    | None => params
    end in
  let params :=
    if truthy_int (price_min a)
    then params_set "price_min" (VInt (default 0 (price_min a))) params
    else params in
  let params :=
    if truthy_int (price_max a)
    then params_set "price_max" (VInt (default 0 (price_max a))) params
    else params in
  let params :=
    match area_min a with
    | Some x => if truthy_number (Some x)
                then params_set "area_min" (number_value x) params else params
    | None => params
    end in
  let params :=
    match area_max a with
    | Some x => if truthy_number (Some x)
                then params_set "area_max" (number_value x) params else params
    | None => params
    end in
  let params :=
    if truthy_int (rooms_min a)
    then params_set "rooms_min" (VInt (default 0 (rooms_min a))) params
    else params in
  let params :=
    if truthy_int (rooms_max a)
    then params_set "rooms_max" (VInt (default 0 (rooms_max a))) params
    else params in
  params.

(** The same arguments with another [area_min], [area_max]. *)
Definition with_area_min (x : option Number) (a : SearchArgs) : SearchArgs :=
  {| county := county a; deal_type := deal_type a;
     property_type := property_type a; price_min := price_min a;
     price_max := price_max a; area_min := x; area_max := area_max a;
     rooms_min := rooms_min a; rooms_max := rooms_max a;
     page_size := page_size a |}.

Definition with_area_max (x : option Number) (a : SearchArgs) : SearchArgs :=
  {| county := county a; deal_type := deal_type a;
     property_type := property_type a; price_min := price_min a;
     price_max := price_max a; area_min := area_min a; area_max := x;
     rooms_min := rooms_min a; rooms_max := rooms_max a;
     page_size := page_size a |}.

(** The URL [get_owner_direct_listings] requests. *)
Definition search_url (a : SearchArgs) : string :=
  _build_search_url (search_params a).

(** The call of [_check_new_listings]: Tallinn, sale, 50000 to 500000,
    at least one room and 20 square metres, default page size. *)
Definition fetch_cycle_query : SearchArgs :=
  {| county := 9; deal_type := SALE; property_type := None;
     price_min := Some 50000; price_max := Some 500000;
     area_min := Some (Int 20); area_max := None;
     rooms_min := Some 1; rooms_max := None; page_size := 100 |}.
End KVeeScraper.

(** [PropertyData.to_dict]. *)
Definition optional_int (x : option Z) : PyValue :=
  match x with Some z => PyInt z | None => PyNone end.

Definition to_dict (self : PropertyData) : gmap string PyValue :=
  {[ "id" := PyInt (PropertyData.id self);
     "url" := PyStr (PropertyData.url self);
     "price" := PyInt (PropertyData.price self);
     "rooms" := optional_int (PropertyData.rooms self);
     "area" := match PropertyData.area self with
               | Some q => PyFloat q | None => PyNone end;
     "year_built" := optional_int (PropertyData.year_built self);
     "condition" := optional_int (PropertyData.condition self);
     "story" := optional_int (PropertyData.story self);
     "energy_label" := match PropertyData.energy_label self with
                       | Some e => PyStr e | None => PyNone end;
     "cost_summer" := optional_int (PropertyData.cost_summer self);
     "cost_winter" := optional_int (PropertyData.cost_winter self);
     "coordinates" := match PropertyData.coordinates self with
                      | Some c => PyDict {[ "lat" := lat c; "lon" := lon c ]}
                      | None => PyNone end;
     "description" := match PropertyData.description self with
                      | Some d => PyStr d | None => PyNone end ]}.

(** ** Vocabulary of the statements *)

(** A sequence of [mark_seen] calls, one per id, in order. *)
Definition mark_seen_each (list_of_set : gset Z → list Z) (ids : list Z)
    (db : Database.t) : Database.t :=
  foldl (λ d listing_id, Database.mark_seen list_of_set listing_id d) db ids.

(** The default record in the words of the specification of the registry:
    [notification_mode=immediate], [filters={}], [subscribed=true]. *)
Definition default_record : Preferences :=
  {[ "notification_mode" := PyStr "immediate";
     "filters" := PyDict ∅;
     "subscribed" := PyBool true ]}.

(** The listings whose id is not in [seen], in order. *)
Definition unseen_at_start (seen : gset Z) (listings : list PropertyData)
  : list PropertyData :=
  List.filter (λ l, bool_decide (PropertyData.id l ∉ seen)) listings.

(** The first listing of each id, in order. *)
Fixpoint first_by_id (listings : list PropertyData) : list PropertyData :=
  match listings with
  | [] => []
  | l :: listings' =>
      l :: List.filter
             (λ l', bool_decide (PropertyData.id l' ≠ PropertyData.id l))
             (first_by_id listings')
  end.

(** A bot that has seen nothing and sent nothing, notifications enabled. *)
Definition idle_bot (us : Users) (channel : Z → Message → bool) : TelegramBot.t :=
  TelegramBot.mk us ∅ true channel 0 [] [].

(** [s'] differs from [s] at most in the subscriber records, the outbox
    and the log. *)
Definition same_engine (s s' : TelegramBot.t) : Prop :=
  TelegramBot.seen_listings s' = TelegramBot.seen_listings s
  ∧ TelegramBot.notifications_enabled s' = TelegramBot.notifications_enabled s
  ∧ TelegramBot.channel s' = TelegramBot.channel s
  ∧ TelegramBot.clock s' = TelegramBot.clock s.

(** A subscribed user with the given mode and filters. *)
Definition subscriber (c : Z) (mode : NotificationMode) (f : Filters)
  : Z * UserPreferences :=
  (c, {| chat_id := c; notification_mode := mode; last_notification := None;
         filters := f; subscribed := true |}).

(** The two listings of the end-to-end scenarios. *)
Definition flat_1 : PropertyData := listing 1 80000 (Some 2) (Some 45%Q).
Definition flat_2 : PropertyData := listing 2 120000 (Some 3) (Some 60%Q).

(** A channel on which every delivery succeeds, and one on which chat [2]
    has blocked the bot. *)
Definition channel_up : Z → Message → bool := λ _ _, true.
Definition chat_2_blocked : Z → Message → bool := λ c _, negb (c =? 2).

(** The listings of [ls] delivered before the first one the channel
    refuses. *)
Fixpoint accepted (ok : PropertyData → bool) (ls : list PropertyData)
  : list PropertyData :=
  match ls with
  | [] => []
  | l :: ls' => if ok l then l :: accepted ok ls' else []
  end.

(** What one subscriber is sent by [_send_notifications], and whether all
    of its matching listings went through: functions of the subscriber's
    own record and of the channel towards its chat. *)
Definition delivered_to (channel : Z → Message → bool)
    (listings : list PropertyData) (entry : Z * UserPreferences)
  : list (Z * Message) :=
  if subscribed entry.2
  then (λ l, (entry.1, NewListing l))
         <$> accepted (λ l, channel entry.1 (NewListing l))
               (_filter_listings listings (filters entry.2))
  else [].

Definition fully_notified (channel : Z → Message → bool)
    (listings : list PropertyData) (entry : Z * UserPreferences) : bool :=
  subscribed entry.2
  && negb (is_empty (_filter_listings listings (filters entry.2)))
  && forallb (λ l, channel entry.1 (NewListing l))
       (_filter_listings listings (filters entry.2)).

Definition after_dispatch (channel : Z → Message → bool) (now : Z)
    (listings : list PropertyData) (entry : Z * UserPreferences)
  : Z * UserPreferences :=
  if fully_notified channel listings entry
  then (entry.1, with_last_notification now entry.2)
  else entry.

(** The settings of an entry of the users dictionary: all of it but
    [last_notification]. *)
Definition settings (entry : Z * UserPreferences)
  : Z * NotificationMode * Filters * bool :=
  (entry.1, notification_mode entry.2, filters entry.2, subscribed entry.2).

(** The update the daily job has for one subscriber, if any: for a
    subscribed daily subscriber with a matching listing, the first five
    matches and their number. *)
Definition daily_update (listings : list PropertyData)
    (entry : Z * UserPreferences) : option (Z * Message) :=
  if subscribed entry.2
     && bool_decide (notification_mode entry.2 = DAILY)
     && negb (is_empty (_filter_listings listings (filters entry.2)))
  then Some (entry.1,
             DailyUpdate (take 5 (_filter_listings listings (filters entry.2)))
               (length (_filter_listings listings (filters entry.2))))
  else None.

(** The same for the weekly job, with the first ten matches. *)
Definition weekly_update (listings : list PropertyData)
    (entry : Z * UserPreferences) : option (Z * Message) :=
  if subscribed entry.2
     && bool_decide (notification_mode entry.2 = WEEKLY)
     && negb (is_empty (_filter_listings listings (filters entry.2)))
  then Some (entry.1,
             WeeklyUpdate (take 10 (_filter_listings listings (filters entry.2)))
               (length (_filter_listings listings (filters entry.2))))
  else None.

(** The messages of a sequence that get through: all those before the
    first one the channel refuses. *)
Fixpoint delivered (channel : Z → Message → bool) (ms : list (Z * Message))
  : list (Z * Message) :=
  match ms with
  | [] => []
  | cm :: ms' => if channel cm.1 cm.2 then cm :: delivered channel ms' else []
  end.

(** The new listings of a fetch cycle started with [seen] on the source
    outcome [o]. *)
Definition new_listings_of (seen : gset Z) (o : SearchOutcome)
  : list PropertyData :=
  unseen_at_start seen (first_by_id (get_owner_direct_listings o)).

(** The messages of an outbox that are for chat [c], in order. *)
Definition inbox (c : Z) (out : list (Z * Message)) : list Message :=
  omap (λ cm, if decide (cm.1 = c) then Some cm.2 else None) out.

(** The six keys [_filter_listings] looks up. *)
Definition bound_keys : list string :=
  ["price_min"; "price_max"; "area_min"; "area_max"; "rooms_min"; "rooms_max"].

(** * Properties *)

(** ** The filter engine *)

Section filter_engine.
Implicit Types (filters : Filters) (l : PropertyData) (key : string).

Lemma num_lt_irrefl (x : Q) : num_lt x x = false.
Proof.
  unfold num_lt. apply negb_false_iff, Qle_bool_iff, Qle_refl.
Qed.

Lemma num_lt_pred (p : Z) : num_lt (inject_Z (p - 1)) (inject_Z p) = true.
Proof.
  unfold num_lt. apply negb_true_iff, not_true_is_false.
  rewrite Qle_bool_iff, <- Zle_Qle. lia.
Qed.

(** A key that is not in the filter bounds nothing. *)
Lemma below_bound_absent filters key v :
  filters !! key = None → below_bound filters key v = false.
Proof. unfold below_bound. by intros ->. Qed.

Lemma above_bound_absent filters key v :
  filters !! key = None → above_bound filters key v = false.
Proof. unfold above_bound. by intros ->. Qed.

(** Each test reads one key of the filter only. *)
Lemma below_bound_other filters key key' v :
  key ≠ key' →
  (∀ q, below_bound (<[key' := q]> filters) key v = below_bound filters key v)
  ∧ below_bound (delete key' filters) key v = below_bound filters key v.
Proof.
  intros Hne. unfold below_bound. split; [intros q|].
  - by rewrite lookup_insert_ne.
  - by rewrite lookup_delete_ne.
Qed.

Lemma above_bound_other filters key key' v :
  key ≠ key' →
  (∀ q, above_bound (<[key' := q]> filters) key v = above_bound filters key v)
  ∧ above_bound (delete key' filters) key v = above_bound filters key v.
Proof.
  intros Hne. unfold above_bound. split; [intros q|].
  - by rewrite lookup_insert_ne.
  - by rewrite lookup_delete_ne.
Qed.

Lemma int_below_other filters key key' x :
  key ≠ key' →
  (∀ q, int_below (<[key' := q]> filters) key x = int_below filters key x)
  ∧ int_below (delete key' filters) key x = int_below filters key x.
Proof.
  intros Hne. unfold int_below. split; [intros q|].
  - by rewrite lookup_insert_ne.
  - by rewrite lookup_delete_ne.
Qed.

Lemma int_above_other filters key key' x :
  key ≠ key' →
  (∀ q, int_above (<[key' := q]> filters) key x = int_above filters key x)
  ∧ int_above (delete key' filters) key x = int_above filters key x.
Proof.
  intros Hne. unfold int_above. split; [intros q|].
  - by rewrite lookup_insert_ne.
  - by rewrite lookup_delete_ne.
Qed.

Lemma float_below_other filters key key' x :
  key ≠ key' →
  (∀ q, float_below (<[key' := q]> filters) key x = float_below filters key x)
  ∧ float_below (delete key' filters) key x = float_below filters key x.
Proof.
  intros Hne. unfold float_below. split; [intros q|].
  - by rewrite lookup_insert_ne.
  - by rewrite lookup_delete_ne.
Qed.

Lemma float_above_other filters key key' x :
  key ≠ key' →
  (∀ q, float_above (<[key' := q]> filters) key x = float_above filters key x)
  ∧ float_above (delete key' filters) key x = float_above filters key x.
Proof.
  intros Hne. unfold float_above. split; [intros q|].
  - by rewrite lookup_insert_ne.
  - by rewrite lookup_delete_ne.
Qed.

(** A field whose truth test fails is never compared. *)
Lemma int_tests_falsy filters key x :
  truthy_int x = false →
  int_below filters key x = false ∧ int_above filters key x = false.
Proof.
  intros Hx. unfold int_below, int_above.
  destruct (filters !! key); by rewrite ?Hx.
Qed.

Lemma float_tests_falsy filters key x :
  truthy_float x = false →
  float_below filters key x = false ∧ float_above filters key x = false.
Proof.
  intros Hx. unfold float_below, float_above.
  destruct (filters !! key); by rewrite ?Hx.
Qed.

(** The flag of [listing_matches] is the conjunction of the six tests. *)
Lemma listing_matches_tests filters l :
  listing_matches filters l =
    negb (below_bound filters "price_min" (inject_Z (PropertyData.price l)))
    && negb (above_bound filters "price_max" (inject_Z (PropertyData.price l)))
    && negb (float_below filters "area_min" (PropertyData.area l))
    && negb (float_above filters "area_max" (PropertyData.area l))
    && negb (int_below filters "rooms_min" (PropertyData.rooms l))
    && negb (int_above filters "rooms_max" (PropertyData.rooms l)).
Proof.
  unfold listing_matches.
  destruct (below_bound _ _ _), (above_bound _ _ _), (float_below _ _ _),
    (float_above _ _ _), (int_below _ _ _), (int_above _ _ _); reflexivity.
Qed.
End filter_engine.

Section filter_claims.
Implicit Types (filters : Filters) (l : PropertyData).

#[local] Ltac unfold_tests :=
  rewrite ?listing_matches_tests;
  unfold price_check, below_bound, above_bound, float_below, float_above,
    int_below, int_above.

(** A filter without price keys is its own restriction to the other keys. *)
Lemma no_price_bound filters :
  filters !! "price_min" = None → filters !! "price_max" = None →
  delete "price_min" (delete "price_max" filters) = filters.
Proof.
  intros Hmin Hmax. rewrite (delete_id _ "price_max") by done.
  by apply delete_id.
Qed.

(** Any threshold below the price rejects, whatever the other keys. *)
Lemma price_above_max_rejected filters l q :
  filters !! "price_max" = Some q →
  num_gt (inject_Z (PropertyData.price l)) q = true →
  listing_matches filters l = false.
Proof.
  intros Hq Hgt. unfold_tests. rewrite Hq, Hgt.
  by rewrite andb_false_r.
Qed.

(** C5: for a listing of price [P], a filter with [price_max = P - 1]
    rejects it whatever its other keys; with [price_max = P] the bound is
    met, so the listing matches exactly when it matches the filter without
    [price_max]; and a filter with no price key passes the price tests for
    every price, the match not depending on the price at all. *)
Theorem price_max_bound_inclusive filters l :
  listing_matches
    (<["price_max" := inject_Z (PropertyData.price l - 1)]> filters) l = false
  ∧ listing_matches
      (<["price_max" := inject_Z (PropertyData.price l)]> filters) l
    = listing_matches (delete "price_max" filters) l
  ∧ ∀ p,
      price_check (delete "price_min" (delete "price_max" filters)) p = true
      ∧ listing_matches (delete "price_min" (delete "price_max" filters))
          (PropertyData.with_price p l)
        = listing_matches (delete "price_min" (delete "price_max" filters)) l.
Proof.
  split; [|split].
  - apply (price_above_max_rejected _ _ (inject_Z (PropertyData.price l - 1))).
    + apply lookup_insert_eq.
    + apply num_lt_pred.
  - unfold_tests. simplify_map_eq.
    unfold num_gt. by rewrite num_lt_irrefl.
  - intros p. split; unfold_tests; by simplify_map_eq.
Qed.

(** C6: a listing whose [rooms] is unset fails neither rooms test, for
    any [rooms_min] and [rooms_max], and so matches a filter exactly when
    it matches the same filter without its rooms keys. *)
Theorem unset_rooms_bypasses_rooms_bounds filters l :
  PropertyData.rooms l = None →
  int_below filters "rooms_min" (PropertyData.rooms l) = false
  ∧ int_above filters "rooms_max" (PropertyData.rooms l) = false
  ∧ listing_matches filters l
    = listing_matches (delete "rooms_min" (delete "rooms_max" filters)) l.
Proof.
  intros Hrooms.
  destruct (int_tests_falsy filters "rooms_min" (PropertyData.rooms l))
    as [Hmin _]; [by rewrite Hrooms|].
  destruct (int_tests_falsy filters "rooms_max" (PropertyData.rooms l))
    as [_ Hmax]; [by rewrite Hrooms|].
  split; [done|split; [done|]].
  rewrite (listing_matches_tests filters), Hmin, Hmax.
  unfold_tests. rewrite Hrooms. simplify_map_eq.
  by rewrite !andb_true_r.
Qed.

Lemma unset_rooms_bypasses_rooms_bounds_witness :
  PropertyData.rooms (listing 1 80000 None (Some 45%Q)) = None
  ∧ listing_matches {["rooms_min" := 3%Q; "rooms_max" := 4%Q]}
      (listing 1 80000 None (Some 45%Q)) = true.
Proof.
  split; [reflexivity|].
  destruct (unset_rooms_bypasses_rooms_bounds
              {["rooms_min" := 3%Q; "rooms_max" := 4%Q]}
              (listing 1 80000 None (Some 45%Q)) eq_refl) as (_ & _ & ->).
  vm_compute. reflexivity.
Defined.

(** The same leniency for an unset [area]. *)
Lemma unset_area_bypasses_area_bounds filters l :
  PropertyData.area l = None →
  listing_matches filters l
  = listing_matches (delete "area_min" (delete "area_max" filters)) l.
Proof.
  intros Harea. unfold_tests. rewrite Harea. simplify_map_eq.
  destruct (filters !! "area_min"), (filters !! "area_max"); simpl;
    by rewrite ?andb_true_r.
Qed.

(** C10: the rooms and area tests go through the truth test of the
    field, so a listing with [rooms = 0] is treated as one with [rooms]
    unset, and likewise for [area = 0]; such a listing matches filters
    whose minimum its zero is below. *)
Theorem zero_field_bypasses_bounds filters l :
  listing_matches filters (PropertyData.with_rooms (Some 0) l)
  = listing_matches filters (PropertyData.with_rooms None l)
  ∧ listing_matches filters (PropertyData.with_area (Some 0%Q) l)
    = listing_matches filters (PropertyData.with_area None l)
  ∧ num_lt (inject_Z 0) 2 = true
  ∧ listing_matches {["rooms_min" := 2%Q]} (listing 1 80000 (Some 0) None) = true
  ∧ num_lt 0 40 = true
  ∧ listing_matches {["area_min" := 40%Q]} (listing 1 80000 None (Some 0%Q)) = true.
Proof.
  split; [|split].
  - unfold_tests. simpl. by destruct (filters !! "rooms_min"), (filters !! "rooms_max").
  - unfold_tests. simpl. by destruct (filters !! "area_min"), (filters !! "area_max").
  - by vm_compute.
Qed.
End filter_claims.

(** ** The seen-set store *)

Section seen_set.
Implicit Types (db : Database.t) (s : gset Z) (listing_id : Z).

Lemma last_n_subseteq {A} (n : Z) (l : list A) : last_n n l ⊆ l.
Proof. apply subseteq_drop. Qed.

Lemma last_n_length {A} (n : Z) (l : list A) :
  0 ≤ n → Z.of_nat (length (last_n n l)) ≤ n.
Proof. intros Hn. unfold last_n. rewrite length_drop. lia. Qed.

Lemma last_n_NoDup {A} (n : Z) (l : list A) : NoDup l → NoDup (last_n n l).
Proof. intros Hl. eapply sublist_NoDup; [done|apply sublist_drop]. Qed.

(** [l[-n:]] of a list one longer than [n] drops its head. *)
Lemma last_n_cons {A} (n : Z) (x : A) (l : list A) :
  Z.of_nat (length l) = n → last_n n (x :: l) = l.
Proof.
  intros Hl. unfold last_n.
  replace (Z.to_nat (Z.of_nat (length (x :: l)) - n)) with 1%nat
    by (rewrite length_cons; lia).
  reflexivity.
Qed.

Lemma ascending_iteration_order : iteration_order ascending.
Proof. intros s. apply merge_sort_Permutation. Qed.

Section any_order.
Variable list_of_set : gset Z → list Z.
Hypothesis Horder : iteration_order list_of_set.

(** Pruning only drops members: what is kept was there. *)
Lemma mark_seen_subseteq listing_id db :
  Database.seen_listings (Database.mark_seen list_of_set listing_id db)
  ⊆ {[listing_id]} ∪ Database.seen_listings db.
Proof.
  unfold Database.mark_seen, Database._save_data. simpl.
  destruct (10000 <? _); [|done].
  intros x Hx. apply elem_of_list_to_set, last_n_subseteq in Hx.
  by rewrite (Horder _), elem_of_elements in Hx.
Qed.

(** One call leaves at most 10000 members, whatever it started from. *)
Lemma mark_seen_size listing_id db :
  Z.of_nat (size (Database.seen_listings
                    (Database.mark_seen list_of_set listing_id db))) ≤ 10000.
Proof.
  unfold Database.mark_seen, Database._save_data. simpl.
  destruct (10000 <? _) eqn:Hcap; [|lia].
  rewrite size_list_to_set.
  - by apply last_n_length.
  - apply last_n_NoDup. rewrite (Horder _). apply NoDup_elements.
Qed.

(** Below the cap nothing is pruned and the marked id is a member. *)
Lemma mark_seen_below_cap listing_id db :
  Z.of_nat (size ({[listing_id]} ∪ Database.seen_listings db)) ≤ 10000 →
  Database.seen_listings (Database.mark_seen list_of_set listing_id db)
  = {[listing_id]} ∪ Database.seen_listings db
  ∧ Database.is_seen listing_id
      (Database.mark_seen list_of_set listing_id db) = true.
Proof.
  intros Hsize. unfold Database.is_seen, Database.mark_seen, Database._save_data.
  simpl. replace (10000 <? _) with false by lia.
  split; [done|]. apply bool_decide_eq_true. set_solver.
Qed.
End any_order.

(** C4: starting from at most 10000 members, any sequence of [mark_seen]
    calls ends with at most 10000 members, for every order in which the
    set may be iterated; and what a call keeps is among the marked id and
    the members before the call. *)
Theorem seen_set_bounded (list_of_set : gset Z → list Z) db (ids : list Z) :
  iteration_order list_of_set →
  Z.of_nat (size (Database.seen_listings db)) ≤ 10000 →
  Z.of_nat (size (Database.seen_listings (mark_seen_each list_of_set ids db)))
    ≤ 10000
  ∧ ∀ listing_id d,
      Database.seen_listings (Database.mark_seen list_of_set listing_id d)
      ⊆ {[listing_id]} ∪ Database.seen_listings d.
Proof.
  intros Horder Hdb. split.
  - unfold mark_seen_each. revert db Hdb.
    induction ids as [|i ids IH]; intros db Hdb; simpl; [done|].
    apply IH. by apply mark_seen_size.
  - intros listing_id d. by apply mark_seen_subseteq.
Qed.

Lemma seen_set_bounded_witness :
  Z.of_nat (size (Database.seen_listings
                    (mark_seen_each ascending [1001; 1002; 1001]
                       (Database.mk ∅ ∅)))) ≤ 10000.
Proof.
  apply (seen_set_bounded ascending (Database.mk ∅ ∅) [1001; 1002; 1001]).
  - intros s. apply merge_sort_Permutation.
  - vm_compute. discriminate.
Defined.

(** Under ascending iteration, marking an id below every member of a set
    of exactly 10000 prunes that very id: the set is as before.  This is a
    statement about [ascending]; it describes CPython where [ascending]
    does, for ids from 0 up to the table size. *)
Lemma mark_seen_evicts_least listing_id (us : gmap string Preferences) s :
  Z.of_nat (size s) = 10000 →
  (∀ x, x ∈ s → listing_id < x) →
  Database.seen_listings
    (Database.mark_seen ascending listing_id (Database.mk us s)) = s.
Proof.
  intros Hsize Hleast.
  assert (listing_id ∉ s) as Hfresh
    by (intros Hin; apply Hleast in Hin; lia).
  unfold Database.mark_seen, Database._save_data.
  cbn [Database.seen_listings Database.users].
  rewrite size_union, size_singleton by set_solver.
  assert ((10000 <? Z.of_nat (1 + size s)) = true)
    as -> by (apply Z.ltb_lt; lia).
  assert (ascending ({[listing_id]} ∪ s) = listing_id :: ascending s) as ->.
  { apply (StronglySorted_unique Z.le).
    - apply StronglySorted_merge_sort; apply _.
    - apply StronglySorted_cons. split.
      + apply Forall_forall. intros x Hx.
        rewrite (ascending_iteration_order _), elem_of_elements in Hx.
        apply Hleast in Hx. lia.
      + apply StronglySorted_merge_sort; apply _.
    - rewrite !(ascending_iteration_order _).
      by apply elements_union_singleton. }
  rewrite last_n_cons.
  - apply set_eq. intros x.
    by rewrite elem_of_list_to_set, (ascending_iteration_order _),
      elem_of_elements.
  - rewrite (ascending_iteration_order _). exact Hsize.
Qed.

Lemma full_seen_set_spec :
  Z.of_nat (size full_seen_set) = 10000 ∧ ∀ x, x ∈ full_seen_set → 0 < x.
Proof.
  unfold full_seen_set. split.
  - rewrite size_list_to_set by apply NoDup_seqZ.
    rewrite length_seqZ. lia.
  - intros x Hx. apply elem_of_list_to_set, elem_of_seqZ in Hx. lia.
Qed.

(** C3, at the seen-set [{1, ..., 10000}] and the id [0], iterated in
    ascending order: [mark_seen(0)] adds [0], finds 10001 members, keeps
    the last 10000 of [0, 1, ..., 10000], and [is_seen(0)] is false. *)
Theorem mark_seen_evicts_marked_id :
  Database.is_seen 0
    (Database.mark_seen ascending 0 (Database.mk ∅ full_seen_set)) = false
  ∧ Database.seen_listings
      (Database.mark_seen ascending 0 (Database.mk ∅ full_seen_set))
    = full_seen_set.
Proof.
  destruct full_seen_set_spec as [Hsize Hpos].
  assert (Database.seen_listings
            (Database.mark_seen ascending 0 (Database.mk ∅ full_seen_set))
          = full_seen_set) as Heq
    by exact (mark_seen_evicts_least 0 ∅ full_seen_set Hsize Hpos).
  split; [|done].
  unfold Database.is_seen. rewrite Heq.
  apply bool_decide_eq_false. intros Hin. apply Hpos in Hin. lia.
Qed.
End seen_set.

(** ** The subscriber registry *)

Section registry.
Implicit Types (db : Database.t) (preferences : Preferences) (c : Z).

Lemma dict_get_set c v (d : Users) : dict_get c (dict_set c v d) = Some v.
Proof.
  induction d as [|[k w] d IH]; simpl.
  - by rewrite decide_True.
  - destruct (decide (k = c)) as [->|Hne]; simpl.
    + by rewrite decide_True.
    + by rewrite decide_False.
Qed.

(** [update_user] on a chat that has no record: nothing is stored. *)
Lemma update_user_absent c preferences db :
  Database.get_user c db = None →
  Database.update_user c preferences db = db.
Proof.
  unfold Database.get_user, Database.update_user. by intros ->.
Qed.

(** C8 as stated fails: on an empty registry [update_user] stores no
    record at all, so not the default record merged with the given
    preferences either. *)
Lemma update_user_creates_no_record :
  Database.get_user 42
    (Database.update_user 42 {["notification_mode" := PyStr "daily"]}
       (Database.mk ∅ ∅))
  ≠ Some ({["notification_mode" := PyStr "daily"]} ∪ default_record).
Proof.
  assert (Database.get_user 42 (Database.mk ∅ ∅) = None) as Habs
    by apply lookup_empty.
  rewrite (update_user_absent _ _ _ Habs), Habs. discriminate.
Qed.

(** C8, amended: [update_user] merges the given preferences into the
    record of a chat that has one, the given keys winning, and does
    nothing for a chat that has none: the whole database is then as it
    was.  In either case no key is created or removed.  The record with
    [notification_mode=immediate], empty filters and [subscribed=true] is
    what [cmd_start] stores for a chat that has none; a chat that has a
    record keeps it. *)
Theorem update_user_merges_existing c preferences db (s : TelegramBot.t) :
  Database.get_user c (Database.update_user c preferences db)
  = (λ stored, preferences ∪ stored) <$> Database.get_user c db
  ∧ dom (Database.users (Database.update_user c preferences db))
    = dom (Database.users db)
  ∧ match Database.get_user c db with
    | Some stored =>
        Database.get_user c (Database.update_user c preferences db)
        = Some (preferences ∪ stored)
    | None => Database.update_user c preferences db = db
    end
  ∧ (cmd_start c s).1 = inr tt
  ∧ dict_get c (TelegramBot.users (cmd_start c s).2)
    = Some (default (new_user c) (dict_get c (TelegramBot.users s)))
  ∧ new_user c
    = {| chat_id := c; notification_mode := IMMEDIATE;
         last_notification := None; filters := ∅; subscribed := true |}.
Proof.
  assert (Database.get_user c (Database.update_user c preferences db)
          = (λ stored, preferences ∪ stored) <$> Database.get_user c db)
    as Hget.
  { unfold Database.get_user, Database.update_user, Database._save_data.
    destruct (Database.users db !! str c) as [stored|] eqn:Hc; simpl.
    - by rewrite lookup_insert_eq.
    - by rewrite Hc. }
  split; [done|split; [|split; [|split; [|split; [|done]]]]].
  - unfold Database.update_user, Database._save_data.
    destruct (Database.users db !! str c) as [stored|] eqn:Hc; simpl; [|done].
    rewrite dom_insert_L. apply elem_of_dom_2 in Hc.
    apply set_eq. intros k. rewrite elem_of_union, elem_of_singleton.
    split; [intros [->|]; done|by right].
  - destruct (Database.get_user c db) as [stored|] eqn:Hc.
    + by rewrite Hget.
    + by apply update_user_absent.
  - unfold cmd_start, mbind, TelegramBot_bind, TelegramBot.bind,
      TelegramBot.gets. simpl.
    by destruct (dict_get c (TelegramBot.users s)).
  - unfold cmd_start, mbind, TelegramBot_bind, TelegramBot.bind,
      TelegramBot.gets. simpl.
    destruct (dict_get c (TelegramBot.users s)) as [v|] eqn:Hc; simpl.
    + by rewrite Hc.
    + by rewrite dict_get_set.
Qed.
End registry.

(** ** Effects of the dispatch loops *)

Section dispatch_frame.
Import TelegramBot.
Implicit Types (s : TelegramBot.t) (c : Z).

#[local] Ltac unfold_monad :=
  unfold mbind, mret, TelegramBot_bind, TelegramBot_ret, bind, ret,
    try_except, gets, modify, logger_error, _save_users in *.

Lemma same_engine_refl s : same_engine s s.
Proof. by repeat split. Qed.

Lemma same_engine_trans s1 s2 s3 :
  same_engine s1 s2 → same_engine s2 s3 → same_engine s1 s3.
Proof.
  intros (? & ? & ? & ?) (? & ? & ? & ?). repeat split; congruence.
Qed.

(** The loop over the matching listings of one subscriber: it delivers up
    to the first refusal, and raises exactly when there is a refusal. *)
Lemma send_loop_spec c (ls : list PropertyData) s :
  ∃ r,
    for_each ls (λ l, send_message c (NewListing l)) s
    = (r, set_outbox
            (outbox s
             ++ ((λ l, (c, NewListing l))
                   <$> accepted (λ l, channel s c (NewListing l)) ls)) s)
    ∧ (forallb (λ l, channel s c (NewListing l)) ls = true → r = inr tt)
    ∧ (forallb (λ l, channel s c (NewListing l)) ls = false → ∃ e, r = inl e).
Proof.
  revert s. induction ls as [|l ls IH]; intros s.
  - exists (inr tt). simpl. rewrite app_nil_r. by destruct s.
  - cbn [for_each accepted forallb].
    unfold mbind at 1, TelegramBot_bind at 1, bind at 1, send_message at 1.
    destruct (channel s c (NewListing l)) eqn:Hok.
    + destruct (IH (set_outbox (outbox s ++ [(c, NewListing l)]) s))
        as (r & Hrun & Hall & Hsome).
      exists r. rewrite Hrun. cbn [channel outbox set_outbox].
      split; [|done]. by rewrite fmap_cons, <- app_assoc.
    + exists (inl (DeliveryError c (NewListing l))). simpl.
      rewrite app_nil_r. split; [by destruct s|]. split; [done|by eexists].
Qed.

Lemma dict_alter_notin f c (d : Users) : c ∉ d.*1 → dict_alter f c d = d.
Proof.
  unfold dict_alter. induction d as [|[k v] d IH]; [done|].
  rewrite fmap_cons, not_elem_of_cons. intros [Hne Hd].
  rewrite !fmap_cons, IH by done. simpl. by rewrite decide_False.
Qed.

(** In a dictionary, mutating the object under [c] changes that entry. *)
Lemma dict_alter_entry f c v (pre rest : Users) :
  NoDup ((pre ++ (c, v) :: rest).*1) →
  dict_alter f c (pre ++ (c, v) :: rest) = pre ++ (c, f v) :: rest.
Proof.
  rewrite fmap_app, fmap_cons. simpl. intros Hnodup.
  apply NoDup_app in Hnodup as (_ & Hpre & Hrest).
  apply NoDup_cons in Hrest as [Hrest _].
  assert (c ∉ pre.*1) as Hc by (intros Hin; apply (Hpre _ Hin); by left).
  unfold dict_alter. rewrite fmap_app, fmap_cons. simpl.
  rewrite decide_True by done.
  fold (dict_alter f c pre). fold (dict_alter f c rest).
  by rewrite !dict_alter_notin.
Qed.

(** One subscriber: the body returns normally, sends what the channel
    accepts up to the first refusal, and sets [last_notification] when
    nothing was refused. *)
Lemma notify_subscriber_spec (ls : list PropertyData) c
    (prefs : UserPreferences) s :
  ∃ s',
    notify_subscriber ls c prefs s = (inr tt, s')
    ∧ same_engine s s'
    ∧ outbox s' = outbox s ++ delivered_to (channel s) ls (c, prefs)
    ∧ users s'
      = if fully_notified (channel s) ls (c, prefs)
        then dict_alter (with_last_notification (clock s)) c (users s)
        else users s.
Proof.
  unfold notify_subscriber, delivered_to, fully_notified. cbn [fst snd].
  destruct (subscribed prefs); cbn [negb andb].
  2: { exists s. rewrite app_nil_r. split; [done|].
       split; [apply same_engine_refl|done]. }
  unfold try_except.
  destruct (_filter_listings ls (filters prefs)) as [|l0 rest] eqn:Hf.
  { exists s. simpl. rewrite app_nil_r. split; [done|].
    split; [apply same_engine_refl|done]. }
  cbn [is_empty negb andb].
  destruct (send_loop_spec c (l0 :: rest) s) as (r & Hrun & Hall & Hsome).
  unfold mbind at 1, TelegramBot_bind at 1, bind at 1. rewrite Hrun.
  destruct (forallb _ (l0 :: rest)).
  - rewrite (Hall eq_refl). eexists. split; [done|].
    by repeat split.
  - destruct (Hsome eq_refl) as [e ->]. eexists. split; [done|].
    by repeat split.
Qed.

(** Without any assumption on the dictionary, the loop returns normally. *)
Lemma notify_loop_returns (ls : list PropertyData) (us : Users) s :
  ∃ s', for_each us (λ '(c, prefs), notify_subscriber ls c prefs) s
        = (inr tt, s')
        ∧ same_engine s s'.
Proof.
  revert s. induction us as [|[c prefs] us IH]; intros s.
  - eexists. split; [done|apply same_engine_refl].
  - destruct (notify_subscriber_spec ls c prefs s) as (s1 & Hone & Hs1 & _).
    destruct (IH s1) as (s2 & Hrest & Hs2).
    exists s2. split; [|by eapply same_engine_trans].
    cbn [for_each]. unfold mbind at 1, TelegramBot_bind at 1, bind at 1.
    by rewrite Hone.
Qed.

(** [_send_notifications] returns normally and leaves the seen-set, the
    switch, the channel and the clock alone. *)
Lemma send_notifications_returns (ls : list PropertyData) s :
  ∃ s', _send_notifications ls s = (inr tt, s') ∧ same_engine s s'.
Proof.
  destruct (notify_loop_returns ls (users s) s) as (s' & Hs' & Hframe).
  exists s'. split; [|done].
  unfold _send_notifications.
  unfold mbind at 1, TelegramBot_bind at 1, bind at 1. simpl.
  unfold mbind at 1, TelegramBot_bind at 1, bind at 1.
  by rewrite Hs'.
Qed.

(** The loop of [_send_notifications] over the entries still to visit. *)
Lemma notify_loop_spec (ls : list PropertyData) (us pre : Users) s :
  users s = pre ++ us →
  NoDup ((pre ++ us).*1) →
  ∃ s',
    for_each us (λ '(c, prefs), notify_subscriber ls c prefs) s = (inr tt, s')
    ∧ same_engine s s'
    ∧ outbox s' = outbox s ++ concat (delivered_to (channel s) ls <$> us)
    ∧ users s' = pre ++ (after_dispatch (channel s) (clock s) ls <$> us).
Proof.
  revert pre s. induction us as [|[c prefs] us IH]; intros pre s Hus Hnodup.
  - exists s. simpl. rewrite app_nil_r.
    split; [done|]. split; [apply same_engine_refl|done].
  - destruct (notify_subscriber_spec ls c prefs s)
      as (s1 & Hone & Hs1 & Hout1 & Hus1).
    assert (users s1
            = (pre ++ [after_dispatch (channel s) (clock s) ls (c, prefs)])
              ++ us) as Hus1'.
    { rewrite Hus1, <- app_assoc. unfold after_dispatch. cbn [app fst snd].
      destruct (fully_notified _ _ _); [|done].
      rewrite Hus. by apply dict_alter_entry. }
    destruct (IH _ s1 Hus1') as (s2 & Hrest & Hs2 & Hout2 & Hus2).
    { rewrite <- app_assoc. cbn [app]. rewrite fmap_app, fmap_cons.
      rewrite fmap_app, fmap_cons in Hnodup. unfold after_dispatch.
      by destruct (fully_notified _ _ _). }
    destruct Hs1 as (Hseen & Hen & Hch & Hclk).
    exists s2. cbn [for_each].
    unfold mbind at 1, TelegramBot_bind at 1, bind at 1. rewrite Hone.
    split; [done|]. split; [|split].
    + eapply same_engine_trans; [|done]. by repeat split.
    + rewrite Hout2, Hout1, Hch, fmap_cons. cbn [concat].
      by rewrite <- app_assoc.
    + rewrite Hus2, Hch, Hclk, fmap_cons. by rewrite <- app_assoc.
Qed.

(** [_send_notifications] isolates subscribers: it returns normally, and
    what each subscriber is sent, and whether its [last_notification] is
    set, depends on its own record and its own deliveries only. *)
Lemma send_notifications_isolates (ls : list PropertyData) s :
  NoDup ((users s).*1) →
  ∃ s',
    _send_notifications ls s = (inr tt, s')
    ∧ same_engine s s'
    ∧ outbox s' = outbox s ++ concat (delivered_to (channel s) ls <$> users s)
    ∧ users s' = after_dispatch (channel s) (clock s) ls <$> users s.
Proof.
  intros Hnodup.
  destruct (notify_loop_spec ls (users s) [] s eq_refl Hnodup)
    as (s' & Hrun & Hs' & Hout & Hus).
  exists s'. split; [|done].
  unfold _send_notifications.
  unfold mbind at 1, TelegramBot_bind at 1, bind at 1. simpl.
  unfold mbind at 1, TelegramBot_bind at 1, bind at 1.
  by rewrite Hrun.
Qed.
End dispatch_frame.

(** ** The fetch cycle *)

Section fetch_cycle.
Import TelegramBot.
Implicit Types (s : TelegramBot.t) (seen : gset Z)
  (ls acc : list PropertyData) (l : PropertyData).

Lemma unseen_at_start_In seen ls l :
  In l (unseen_at_start seen ls) ↔ In l ls ∧ PropertyData.id l ∉ seen.
Proof.
  unfold unseen_at_start. rewrite List.filter_In.
  by rewrite bool_decide_eq_true.
Qed.

(** Members of [first_by_id ls] are members of [ls], and every id of
    [ls] is the id of one of them. *)
Lemma first_by_id_In ls l : In l (first_by_id ls) → In l ls.
Proof.
  induction ls as [|l0 ls IH]; simpl; [done|].
  intros [->|Hin]; [by left|].
  apply List.filter_In in Hin as [Hin _]. right. by apply IH.
Qed.

Lemma first_by_id_covers ls l :
  In l ls → ∃ l', In l' (first_by_id ls) ∧ PropertyData.id l' = PropertyData.id l.
Proof.
  induction ls as [|l0 ls IH]; simpl; [done|].
  intros [->|Hin]; [by exists l; split; [left|]|].
  destruct (IH Hin) as (l' & Hl' & Hid).
  destruct (decide (PropertyData.id l' = PropertyData.id l0)) as [Heq|Hne].
  - exists l0. split; [by left|congruence].
  - exists l'. split; [|done]. right.
    apply List.filter_In. split; [done|]. by apply bool_decide_eq_true.
Qed.

(** With pairwise distinct ids every listing is the first of its id. *)
Lemma first_by_id_distinct ls :
  NoDup (PropertyData.id <$> ls) → first_by_id ls = ls.
Proof.
  induction ls as [|l ls IH]; simpl; [done|].
  rewrite NoDup_cons. intros [Hl Hls]. f_equal.
  rewrite IH by done.
  apply List.forallb_filter_id, List.forallb_forall. intros l' Hl'.
  apply bool_decide_eq_true. intros Heq. apply Hl. rewrite <- Heq.
  apply list_elem_of_fmap. exists l'. split; [done|].
  by apply list_elem_of_In.
Qed.

Lemma unseen_at_start_cons seen l ls :
  unseen_at_start seen (l :: ls)
  = if bool_decide (PropertyData.id l ∉ seen)
    then l :: unseen_at_start seen ls
    else unseen_at_start seen ls.
Proof. reflexivity. Qed.

(** Filtering out one more seen id. *)
Lemma unseen_after_marking seen l ls :
  unseen_at_start seen
    (List.filter (λ l', bool_decide (PropertyData.id l' ≠ PropertyData.id l)) ls)
  = unseen_at_start ({[PropertyData.id l]} ∪ seen) ls.
Proof.
  induction ls as [|l' ls IH]; [done|].
  rewrite unseen_at_start_cons. cbn [List.filter].
  destruct (decide (PropertyData.id l' = PropertyData.id l)) as [Heq|Hne].
  - rewrite (bool_decide_eq_false_2 (_ ≠ _)) by (by intros ?).
    rewrite (bool_decide_eq_false_2 (_ ∉ {[_]} ∪ _)); [done|].
    intros Hout. apply Hout, elem_of_union_l, elem_of_singleton, Heq.
  - rewrite (bool_decide_eq_true_2 (_ ≠ _)) by done.
    rewrite unseen_at_start_cons, IH.
    destruct (decide (PropertyData.id l' ∈ seen)) as [Hin|Hout].
    + rewrite (bool_decide_eq_false_2 (_ ∉ seen)) by (by intros ?).
      rewrite (bool_decide_eq_false_2 (_ ∉ {[_]} ∪ _)); [done|].
      intros Hout. by apply Hout, elem_of_union_r.
    + rewrite (bool_decide_eq_true_2 (_ ∉ seen)) by done.
      rewrite (bool_decide_eq_true_2 (_ ∉ {[_]} ∪ _)); [done|].
      rewrite elem_of_union, elem_of_singleton. tauto.
Qed.

Lemma unseen_of_seen seen l ls :
  PropertyData.id l ∈ seen →
  unseen_at_start seen
    (List.filter (λ l', bool_decide (PropertyData.id l' ≠ PropertyData.id l)) ls)
  = unseen_at_start seen ls.
Proof.
  intros Hin. rewrite unseen_after_marking. f_equal.
  apply set_eq. intros x. rewrite elem_of_union, elem_of_singleton.
  split; [intros [->|]; done|by right].
Qed.

Lemma set_seen_listings_id s : set_seen_listings (seen_listings s) s = s.
Proof. by destruct s. Qed.

(** The loop of the fetch cycle: it appends the first listing of each
    unseen id and adds exactly those ids to the seen-set. *)
Lemma collect_new_spec ls acc s :
  collect_new ls acc s
  = (inr (acc ++ unseen_at_start (seen_listings s) (first_by_id ls)),
     set_seen_listings
       (list_to_set
          (PropertyData.id
             <$> unseen_at_start (seen_listings s) (first_by_id ls))
        ∪ seen_listings s) s).
Proof.
  revert acc s. induction ls as [|l ls IH]; intros acc s.
  - simpl. rewrite app_nil_r. unfold mret, TelegramBot_ret, ret.
    rewrite (left_id_L ∅ (∪)). by rewrite set_seen_listings_id.
  - cbn [collect_new first_by_id].
    unfold mbind at 1, TelegramBot_bind at 1, bind at 1, gets at 1.
    rewrite !unseen_at_start_cons.
    destruct (decide (PropertyData.id l ∈ seen_listings s)) as [Hin|Hout].
    + rewrite IH.
      rewrite (bool_decide_eq_false_2 (_ ∉ _)) by (by intros ?).
      by rewrite !unseen_of_seen.
    + unfold mbind at 1, TelegramBot_bind at 1, bind at 1, modify at 1.
      rewrite IH. cbn [seen_listings set_seen_listings].
      rewrite (bool_decide_eq_true_2 (_ ∉ _)) by done.
      rewrite !unseen_after_marking, <- app_assoc.
      rewrite fmap_cons, list_to_set_cons. simpl.
      change (set_seen_listings ?a (set_seen_listings ?b s))
        with (set_seen_listings a s).
      do 2 f_equal. by rewrite (assoc_L (∪)), (comm_L (∪) _ {[_]}).
Qed.

(** The fetch cycle as a whole: what it returns and what it leaves. *)
Lemma check_new_listings_spec (o : SearchOutcome) s :
  ∃ s',
    _check_new_listings o s
    = (inr (unseen_at_start (seen_listings s)
              (first_by_id (get_owner_direct_listings o))), s')
    ∧ seen_listings s'
      = list_to_set
          (PropertyData.id
             <$> unseen_at_start (seen_listings s)
                   (first_by_id (get_owner_direct_listings o)))
        ∪ seen_listings s
    ∧ (source_failed o = true → s' = s).
Proof.
  unfold _check_new_listings, try_except.
  unfold mbind at 1, TelegramBot_bind at 1, bind at 1.
  rewrite collect_new_spec. cbn [app].
  set (new := unseen_at_start _ _).
  set (s1 := set_seen_listings _ s).
  unfold mbind at 1, TelegramBot_bind at 1, bind at 1, gets at 1.
  destruct (negb (is_empty new) && notifications_enabled s1) eqn:Hsend.
  - destruct (send_notifications_returns new s1) as (s2 & Hs2 & Hseen & _).
    unfold mbind at 1, TelegramBot_bind at 1, bind at 1. rewrite Hs2.
    exists s2. split; [done|]. split; [by rewrite Hseen|].
    intros Hfail. exfalso. revert Hsend. subst new.
    destruct o as [|[] rows]; done.
  - exists s1. split; [done|]. split; [done|].
    intros Hfail. subst s1 new.
    destruct o as [|[] rows]; try done; simpl;
      by rewrite (left_id_L ∅ (∪)), set_seen_listings_id.
Qed.

(** C7 as stated fails: when the source returns the same id twice, the
    second listing is not returned although its id was not in the
    seen-set at the start of the cycle. *)
Lemma fetch_cycle_skips_repeated_id :
  (_check_new_listings
     (Responded true [Some (listing 1 80000 (Some 2) (Some 45%Q));
                      Some (listing 1 79000 (Some 2) (Some 45%Q))])
     (idle_bot [] (λ _ _, true))).1
  ≠ inr (unseen_at_start ∅ [listing 1 80000 (Some 2) (Some 45%Q);
                            listing 1 79000 (Some 2) (Some 45%Q)]).
Proof.
  destruct (check_new_listings_spec
              (Responded true [Some (listing 1 80000 (Some 2) (Some 45%Q));
                               Some (listing 1 79000 (Some 2) (Some 45%Q))])
              (idle_bot [] (λ _ _, true))) as (s' & -> & _).
  vm_compute. intros Heq. discriminate Heq.
Qed.

(** C7, amended: the fetch cycle returns, in order, the first listing of
    each id that was not in the seen-set at the start of the cycle, adds
    exactly the returned ids to the seen-set, and run again on the same
    source result returns the empty sequence. *)
Theorem fetch_cycle_returns_first_unseen (o : SearchOutcome) s :
  (_check_new_listings o s).1
  = inr (unseen_at_start (seen_listings s)
           (first_by_id (get_owner_direct_listings o)))
  ∧ seen_listings (_check_new_listings o s).2
    = list_to_set
        (PropertyData.id
           <$> unseen_at_start (seen_listings s)
                 (first_by_id (get_owner_direct_listings o)))
      ∪ seen_listings s
  ∧ (_check_new_listings o (_check_new_listings o s).2).1 = inr [].
Proof.
  destruct (check_new_listings_spec o s) as (s1 & Hrun & Hseen & _).
  rewrite Hrun. cbn [fst snd]. split; [done|split; [done|]].
  destruct (check_new_listings_spec o s1) as (s2 & Hrun2 & _).
  rewrite Hrun2. cbn [fst]. f_equal.
  destruct (unseen_at_start (seen_listings s1) _) as [|l rest] eqn:Hnew; [done|].
  exfalso.
  assert (In l (l :: rest)) as Hl by (by left).
  rewrite <- Hnew in Hl. apply unseen_at_start_In in Hl as [Hl Hout].
  apply Hout. rewrite Hseen.
  destruct (decide (PropertyData.id l ∈ seen_listings s)) as [Hin|Hnin].
  - by apply elem_of_union_r.
  - apply elem_of_union_l, elem_of_list_to_set, list_elem_of_fmap.
    exists l. split; [done|].
    apply list_elem_of_In, unseen_at_start_In. by split.
Qed.

(** C9: when the listing source fails, by a raised error or a response
    that is not a success, the fetch cycle returns normally with no new
    listing and the bot, its seen-set included, is as before. *)
Theorem fetch_cycle_survives_source_failure (o : SearchOutcome) s :
  source_failed o = true →
  _check_new_listings o s = (inr [], s).
Proof.
  intros Hfail.
  destruct (check_new_listings_spec o s) as (s' & Hrun & _ & Hsame).
  rewrite Hrun, (Hsame Hfail). do 2 f_equal.
  destruct o as [|[] rows]; done.
Qed.

Lemma fetch_cycle_survives_source_failure_witness :
  _check_new_listings
    (Responded false [Some (listing 1 80000 (Some 2) (Some 45%Q))])
    (idle_bot [] (λ _ _, true))
  = (inr [], idle_bot [] (λ _ _, true)).
Proof.
  apply (fetch_cycle_survives_source_failure
           (Responded false [Some (listing 1 80000 (Some 2) (Some 45%Q))])
           (idle_bot [] (λ _ _, true))).
  reflexivity.
Defined.
End fetch_cycle.

(** ** Cadences and dispatch *)

Section dispatch.
Import TelegramBot.

(** The loop of [_send_notifications] never reads [notification_mode]. *)
Lemma notify_subscriber_ignores_mode (ls : list PropertyData) (c : Z)
    (prefs : UserPreferences) (mode : NotificationMode) :
  notify_subscriber ls c prefs
  = notify_subscriber ls c
      {| chat_id := chat_id prefs; notification_mode := mode;
         last_notification := last_notification prefs;
         filters := filters prefs; subscribed := subscribed prefs |}.
Proof. reflexivity. Qed.

(** C1, at one daily and one weekly subscriber: the interval job finds
    one new listing and both of them are sent it. *)
Theorem interval_job_notifies_every_mode :
  outbox
    (fire Interval (Responded true [Some flat_1])
       (idle_bot [subscriber 7 DAILY ∅; subscriber 8 WEEKLY ∅] channel_up)).2
  = [(7, NewListing flat_1); (8, NewListing flat_1)].
Proof. vm_compute. reflexivity. Qed.

(** C2, at three daily subscribers of which the second has blocked the
    bot.  The daily job stops at the failed delivery: the first subscriber
    gets the daily update, the third does not, and the one error record of
    the daily loop is for the job as a whole.  The same holds for the
    weekly job.  Only the per-listing messages of the fetch cycle, sent by
    [_send_notifications], reach the third subscriber. *)
Theorem summary_jobs_stop_at_failed_delivery :
  outbox
    (fire DailyCron (Responded true [Some flat_1])
       (idle_bot [subscriber 1 DAILY ∅; subscriber 2 DAILY ∅;
                  subscriber 3 DAILY ∅] chat_2_blocked)).2
  = [(1, NewListing flat_1); (3, NewListing flat_1);
     (1, DailyUpdate [flat_1] 1)]
  ∧ log
      (fire DailyCron (Responded true [Some flat_1])
         (idle_bot [subscriber 1 DAILY ∅; subscriber 2 DAILY ∅;
                    subscriber 3 DAILY ∅] chat_2_blocked)).2
    = [ErrorSendingNotification 2 (DeliveryError 2 (NewListing flat_1));
       ErrorSendingDaily (DeliveryError 2 (DailyUpdate [flat_1] 1))]
  ∧ outbox
      (fire WeeklyCron (Responded true [Some flat_1])
         (idle_bot [subscriber 1 WEEKLY ∅; subscriber 2 WEEKLY ∅;
                    subscriber 3 WEEKLY ∅] chat_2_blocked)).2
    = [(1, NewListing flat_1); (3, NewListing flat_1);
       (1, WeeklyUpdate [flat_1] 1)].
Proof. vm_compute. repeat split; reflexivity. Qed.

(** The loop of the daily job on its own, same subscribers: it raises at
    the second subscriber and the third is not visited. *)
Lemma daily_loop_raises_at_failed_delivery :
  for_each [subscriber 1 DAILY ∅; subscriber 2 DAILY ∅; subscriber 3 DAILY ∅]
    (λ '(c, prefs), daily_summary [flat_1] c prefs)
    (idle_bot [] chat_2_blocked)
  = (inl (DeliveryError 2 (DailyUpdate [flat_1] 1)),
     set_outbox [(1, DailyUpdate [flat_1] 1)] (idle_bot [] chat_2_blocked)).
Proof. reflexivity. Qed.

(** [_send_notifications] on the same subscribers: the failure of the
    second is logged for it alone, the first and the third are sent the
    listing and have [last_notification] set. *)
Lemma send_notifications_isolates_failed_delivery :
  _send_notifications [flat_1]
    (idle_bot [subscriber 1 DAILY ∅; subscriber 2 DAILY ∅;
               subscriber 3 DAILY ∅] chat_2_blocked)
  = (inr tt,
     TelegramBot.mk
       [(1, with_last_notification 0 (subscriber 1 DAILY ∅).2);
        subscriber 2 DAILY ∅;
        (3, with_last_notification 0 (subscriber 3 DAILY ∅).2)]
       ∅ true chat_2_blocked 0
       [(1, NewListing flat_1); (3, NewListing flat_1)]
       [ErrorSendingNotification 2 (DeliveryError 2 (NewListing flat_1))]).
Proof. reflexivity. Qed.
(** An exception in the body ends a loop: the entries after it are not
    visited, whatever they are. *)
Lemma for_each_raises {A} (pre rest : list A) (x : A) (body : A → M unit)
    s s1 s2 e :
  for_each pre body s = (inr tt, s1) →
  body x s1 = (inl e, s2) →
  for_each (pre ++ x :: rest) body s = (inl e, s2).
Proof.
  revert s. induction pre as [|y pre IH]; intros s; simpl.
  - intros [= <-] Hx.
    unfold mbind, TelegramBot_bind, bind. by rewrite Hx.
  - unfold mbind, TelegramBot_bind, bind.
    destruct (body y s) as [[e'|[]] s']; [done|].
    intros Hpre Hx. by apply IH.
Qed.

(** A subscriber with [subscribed = false] is skipped by all three loops
    (end-to-end scenario C). *)
Lemma unsubscribed_is_skipped (ls : list PropertyData) (c : Z)
    (prefs : UserPreferences) s :
  subscribed prefs = false →
  notify_subscriber ls c prefs s = (inr tt, s)
  ∧ daily_summary ls c prefs s = (inr tt, s)
  ∧ weekly_summary ls c prefs s = (inr tt, s).
Proof.
  intros Hsub. unfold notify_subscriber, daily_summary, weekly_summary.
  by rewrite Hsub.
Qed.

(** End-to-end scenario A: both listings are new and marked seen, the
    subscriber with [price_max = 100000] is sent the first only. *)
Example scenario_A :
  (_check_new_listings (Responded true [Some flat_1; Some flat_2])
     (idle_bot [subscriber 5 IMMEDIATE {["price_max" := 100000%Q]}]
        channel_up)).1
  = inr [flat_1; flat_2]
  ∧ outbox
      (_check_new_listings (Responded true [Some flat_1; Some flat_2])
         (idle_bot [subscriber 5 IMMEDIATE {["price_max" := 100000%Q]}]
            channel_up)).2
    = [(5, NewListing flat_1)]
  ∧ seen_listings
      (_check_new_listings (Responded true [Some flat_1; Some flat_2])
         (idle_bot [subscriber 5 IMMEDIATE {["price_max" := 100000%Q]}]
            channel_up)).2
    = {[1; 2]}.
Proof. repeat split; by vm_compute. Qed.

(** End-to-end scenario B: the same source result on the next cycle gives
    no new listing and no message. *)
Example scenario_B :
  (_check_new_listings (Responded true [Some flat_1; Some flat_2])
     (_check_new_listings (Responded true [Some flat_1; Some flat_2])
        (idle_bot [subscriber 5 IMMEDIATE {["price_max" := 100000%Q]}]
           channel_up)).2).1
  = inr []
  ∧ outbox
      (_check_new_listings (Responded true [Some flat_1; Some flat_2])
         (_check_new_listings (Responded true [Some flat_1; Some flat_2])
            (idle_bot [subscriber 5 IMMEDIATE {["price_max" := 100000%Q]}]
               channel_up)).2).2
    = [(5, NewListing flat_1)].
Proof. split; by vm_compute. Qed.
End dispatch.


(** * Further properties of the stores *)

Section database_store.
Implicit Types (db : Database.t) (preferences : Preferences) (c : Z).

Lemma str_inj c c' : str c = str c' → c = c'.
Proof. unfold str. apply (inj pretty). Qed.

Lemma database_eta db :
  Database.mk (Database.users db) (Database.seen_listings db) = db.
Proof. by destruct db. Qed.

(** X1: [add_user] followed by [get_user] gives back the preferences just
    stored, which replace any earlier record of the chat as a whole; the
    records of all other chats and the seen-set are as before. *)
Theorem add_user_then_get_user c c' preferences db :
  Database.get_user c' (Database.add_user c preferences db)
  = (if decide (c' = c) then Some preferences else Database.get_user c' db)
  ∧ Database.seen_listings (Database.add_user c preferences db)
    = Database.seen_listings db.
Proof.
  split; [|done].
  unfold Database.get_user, Database.add_user, Database._save_data. simpl.
  destruct (decide (c' = c)) as [->|Hne].
  - apply lookup_insert_eq.
  - apply lookup_insert_ne. intros Heq. by apply Hne, str_inj.
Qed.

(** X2: after [delete_user] the chat has no record and every other chat
    has the record it had; a second [delete_user] of the same chat changes
    nothing; and deleting a chat right after adding it is the same as
    deleting it from the database before the addition. *)
Theorem delete_user_removes_one_record c c' preferences db :
  Database.get_user c' (Database.delete_user c db)
  = (if decide (c' = c) then None else Database.get_user c' db)
  ∧ Database.delete_user c (Database.delete_user c db)
    = Database.delete_user c db
  ∧ Database.delete_user c (Database.add_user c preferences db)
    = Database.delete_user c db.
Proof.
  unfold Database.get_user, Database.delete_user, Database.add_user,
    Database._save_data. simpl.
  split; [|split].
  - destruct (Database.users db !! str c) as [stored|] eqn:Hc; simpl.
    + destruct (decide (c' = c)) as [->|Hne].
      * apply lookup_delete_eq.
      * apply lookup_delete_ne. intros Heq. by apply Hne, str_inj.
    + destruct (decide (c' = c)) as [->|Hne]; done.
  - destruct (Database.users db !! str c) as [stored|] eqn:Hc; simpl.
    + by rewrite lookup_delete_eq.
    + by rewrite Hc.
  - rewrite lookup_insert_eq, delete_insert_eq.
    destruct (Database.users db !! str c) as [stored|] eqn:Hc; [done|].
    rewrite delete_id by done. apply database_eta.
Qed.

(** X3: two [update_user] calls for the same chat amount to one call with
    the two dictionaries merged, the keys of the later call winning; and
    updating a record just added gives the update merged over it. *)
Theorem update_user_composes c (p1 p2 : Preferences) db :
  Database.update_user c p2 (Database.update_user c p1 db)
  = Database.update_user c (p2 ∪ p1) db
  ∧ Database.get_user c (Database.update_user c p2 (Database.add_user c p1 db))
    = Some (p2 ∪ p1).
Proof.
  unfold Database.get_user, Database.update_user, Database.add_user,
    Database._save_data. split.
  - destruct (Database.users db !! str c) as [stored|] eqn:Hc; simpl.
    + rewrite lookup_insert_eq, insert_insert_eq. simpl.
      by rewrite (assoc_L (∪)).
    + by rewrite Hc.
  - simpl. rewrite lookup_insert_eq. simpl. apply lookup_insert_eq.
Qed.

(** X4: loading what was saved gives the database back, for every order
    in which the seen-set is written; a database built from no files is
    empty; and when either document cannot be read both attributes end up
    empty, a readable users document included. *)
Theorem save_then_load_round_trip (list_of_set : gset Z → list Z) db
    (users_file : File (gmap string Preferences)) (seen_file : File (list Z)) :
  iteration_order list_of_set →
  Database.__init__ (Database.written_users db)
    (Database.written_seen list_of_set db) = db
  ∧ Database.__init__ Absent Absent = Database.mk ∅ ∅
  ∧ Database.__init__ users_file Unreadable = Database.mk ∅ ∅
  ∧ Database.__init__ Unreadable seen_file = Database.mk ∅ ∅.
Proof.
  intros Horder. split; [|split; [done|split; [by destruct users_file|done]]].
  unfold Database.__init__, Database._load_data, Database.written_users,
    Database.written_seen. simpl.
  replace (list_to_set (list_of_set (Database.seen_listings db)))
    with (Database.seen_listings db); [apply database_eta|].
  apply set_eq. intros x.
  by rewrite elem_of_list_to_set, (Horder _), elem_of_elements.
Qed.

Lemma save_then_load_round_trip_witness :
  Database.__init__
    (Database.written_users (Database.mk ∅ {[1001; 1002]}))
    (Database.written_seen ascending (Database.mk ∅ {[1001; 1002]}))
  = Database.mk ∅ {[1001; 1002]}.
Proof.
  apply (save_then_load_round_trip ascending (Database.mk ∅ {[1001; 1002]})
           Absent Absent).
  intros s. apply merge_sort_Permutation.
Defined.
End database_store.

Section seen_set_store.
Implicit Types (db : Database.t) (listing_id : Z).
Variable list_of_set : gset Z → list Z.

(** Pruning a set of more than 10000 members leaves exactly 10000. *)
Lemma pruned_size (s : gset Z) :
  iteration_order list_of_set →
  10000 < Z.of_nat (size s) →
  Z.of_nat (size (list_to_set (last_n 10000 (list_of_set s)) : gset Z)) = 10000.
Proof.
  intros Horder Hsize.
  rewrite size_list_to_set
    by (apply last_n_NoDup; rewrite (Horder _); apply NoDup_elements).
  unfold last_n. rewrite length_drop.
  assert (length (list_of_set s) = size s) as ->
    by (by rewrite (Horder _)).
  lia.
Qed.

(** X5: while the seen-set with the id added has at most 10000 members,
    [mark_seen] adds the id and keeps every member, so the id is seen
    afterwards, a second call with the same id changes nothing, and the
    users are untouched; this needs nothing about the iteration order. *)
Theorem mark_seen_idempotent_below_cap listing_id db :
  Z.of_nat (size ({[listing_id]} ∪ Database.seen_listings db)) ≤ 10000 →
  Database.seen_listings (Database.mark_seen list_of_set listing_id db)
  = {[listing_id]} ∪ Database.seen_listings db
  ∧ Database.is_seen listing_id
      (Database.mark_seen list_of_set listing_id db) = true
  ∧ Database.mark_seen list_of_set listing_id
      (Database.mark_seen list_of_set listing_id db)
    = Database.mark_seen list_of_set listing_id db
  ∧ Database.users (Database.mark_seen list_of_set listing_id db)
    = Database.users db.
Proof.
  intros Hsize.
  assert ({[listing_id]} ∪ ({[listing_id]} ∪ Database.seen_listings db)
          = {[listing_id]} ∪ Database.seen_listings db) as Hunion
    by (by rewrite (assoc_L (∪)), (idemp_L (∪))).
  unfold Database.is_seen, Database.mark_seen, Database._save_data.
  cbn [Database.seen_listings Database.users].
  replace (10000 <? _) with false by lia.
  split; [done|]. split; [|split; [|done]].
  - apply bool_decide_eq_true, elem_of_union_l. by apply elem_of_singleton.
  - rewrite Hunion. by replace (10000 <? _) with false by lia.
Qed.

(** X6: when adding the id takes the seen-set over 10000 members,
    [mark_seen] leaves exactly 10000 of them, for every iteration order. *)
Theorem mark_seen_prunes_to_cap listing_id db :
  iteration_order list_of_set →
  10000 < Z.of_nat (size ({[listing_id]} ∪ Database.seen_listings db)) →
  Z.of_nat (size (Database.seen_listings
                    (Database.mark_seen list_of_set listing_id db))) = 10000.
Proof.
  intros Horder Hsize.
  unfold Database.mark_seen, Database._save_data. simpl.
  replace (10000 <? _) with true by lia.
  by apply pruned_size.
Qed.

(** X7: [cleanup_old_seen] leaves a seen-set of at most 10000 members as
    it is and cuts a larger one down to exactly 10000 of its members; it
    never touches the users; a second call changes nothing, nor does a call
    right after [mark_seen]. *)
Theorem cleanup_old_seen_prunes_once (days days' : Z) listing_id db :
  iteration_order list_of_set →
  Z.of_nat (size (Database.seen_listings
                    (Database.cleanup_old_seen list_of_set days db)))
  = Z.min (Z.of_nat (size (Database.seen_listings db))) 10000
  ∧ Database.seen_listings (Database.cleanup_old_seen list_of_set days db)
    ⊆ Database.seen_listings db
  ∧ Database.users (Database.cleanup_old_seen list_of_set days db)
    = Database.users db
  ∧ Database.cleanup_old_seen list_of_set days'
      (Database.cleanup_old_seen list_of_set days db)
    = Database.cleanup_old_seen list_of_set days db
  ∧ Database.cleanup_old_seen list_of_set days
      (Database.mark_seen list_of_set listing_id db)
    = Database.mark_seen list_of_set listing_id db.
Proof.
  intros Horder.
  assert (∀ d, Z.of_nat (size (Database.seen_listings d)) ≤ 10000 →
               Database.cleanup_old_seen list_of_set days' d = d
               ∧ Database.cleanup_old_seen list_of_set days d = d)
    as Hsmall.
  { intros d Hd. unfold Database.cleanup_old_seen.
    by replace (10000 <? _) with false by lia. }
  assert (Z.of_nat (size (Database.seen_listings
                    (Database.cleanup_old_seen list_of_set days db)))
          = Z.min (Z.of_nat (size (Database.seen_listings db))) 10000)
    as Hsize.
  { unfold Database.cleanup_old_seen, Database._save_data.
    destruct (10000 <? _) eqn:Hcap; simpl.
    - rewrite pruned_size by (done || lia). lia.
    - lia. }
  split; [done|]. split; [|split; [|split]].
  - unfold Database.cleanup_old_seen, Database._save_data.
    destruct (10000 <? _); simpl; [|done].
    intros x Hx. apply elem_of_list_to_set, last_n_subseteq in Hx.
    by rewrite (Horder _), elem_of_elements in Hx.
  - unfold Database.cleanup_old_seen, Database._save_data.
    by destruct (10000 <? _).
  - apply Hsmall. lia.
  - apply Hsmall. by apply mark_seen_size.
Qed.

End seen_set_store.

Lemma mark_seen_idempotent_below_cap_witness :
  Database.is_seen 1001
    (Database.mark_seen ascending 1001 (Database.mk ∅ {[1002]})) = true.
Proof.
  apply (mark_seen_idempotent_below_cap ascending 1001 (Database.mk ∅ {[1002]})).
  vm_compute. discriminate.
Defined.

Lemma cleanup_old_seen_prunes_once_witness :
  Database.cleanup_old_seen ascending 30
    (Database.cleanup_old_seen ascending 30 (Database.mk ∅ {[1001; 1002]}))
  = Database.cleanup_old_seen ascending 30 (Database.mk ∅ {[1001; 1002]}).
Proof.
  destruct (cleanup_old_seen_prunes_once ascending 30 30 0
              (Database.mk ∅ {[1001; 1002]})) as (_ & _ & _ & Hagain & _).
  - intros s. apply merge_sort_Permutation.
  - exact Hagain.
Defined.

Lemma full_seen_set_overflows :
  10000 < Z.of_nat (size ({[0]} ∪ Database.seen_listings
                                     (Database.mk ∅ full_seen_set))).
Proof.
  destruct full_seen_set_spec as [Hsize Hpos].
  cbn [Database.seen_listings].
  rewrite size_union, size_singleton.
  - revert Hsize. generalize (size full_seen_set). intros n Hn. lia.
  - intros x Hx Hin. apply elem_of_singleton in Hx as ->.
    apply Hpos in Hin. lia.
Qed.

Lemma mark_seen_prunes_to_cap_witness :
  Z.of_nat (size (Database.seen_listings
                    (Database.mark_seen ascending 0
                       (Database.mk ∅ full_seen_set)))) = 10000.
Proof.
  apply (mark_seen_prunes_to_cap ascending 0 (Database.mk ∅ full_seen_set)).
  - intros s. apply merge_sort_Permutation.
  - apply full_seen_set_overflows.
Defined.

(** * Further properties of the registry commands *)

Section registry_commands.
Import TelegramBot.
Implicit Types (s : TelegramBot.t) (c : Z) (d : Users).

#[local] Ltac run :=
  unfold cmd_start, cmd_subscribe, cmd_unsubscribe, cmd_stop, _save_users,
    mbind, mret, TelegramBot_bind, TelegramBot_ret, bind, ret, gets, modify;
  cbn [fst snd users set_users].

Lemma dict_get_set_other c c' v d :
  c' ≠ c → dict_get c' (dict_set c v d) = dict_get c' d.
Proof.
  intros Hne. induction d as [|[k w] d IH]; simpl.
  - by rewrite decide_False.
  - destruct (decide (k = c)) as [->|Hk]; simpl.
    + by rewrite !decide_False.
    + by rewrite IH.
Qed.

Lemma dict_get_alter f c c' d :
  dict_get c' (dict_alter f c d)
  = if decide (c' = c) then f <$> dict_get c d else dict_get c' d.
Proof.
  induction d as [|[k w] d IH].
  - by destruct (decide (c' = c)).
  - change (dict_alter f c ((k, w) :: d))
      with ((if decide (k = c) then (k, f w) else (k, w)) :: dict_alter f c d).
    destruct (decide (k = c)) as [->|Hk]; cbn [dict_get]; rewrite IH.
    + destruct (decide (c = c')) as [<-|Hne].
      * by rewrite !decide_True.
      * by rewrite !decide_False by congruence.
    + destruct (decide (k = c')) as [->|Hk'].
      * by rewrite decide_False.
      * rewrite (decide_False (P := k = c)) by done. done.
Qed.

Lemma dict_get_del c c' d :
  dict_get c' (dict_del c d)
  = if decide (c' = c) then None else dict_get c' d.
Proof.
  induction d as [|[k w] d IH]; simpl.
  - by destruct (decide (c' = c)).
  - destruct (decide (k = c)) as [->|Hk]; simpl.
    + rewrite IH. destruct (decide (c' = c)) as [->|Hne]; [done|].
      by rewrite decide_False.
    + destruct (decide (k = c')) as [->|Hk']; [by rewrite decide_False|].
      done.
Qed.

(** [cmd_start] stores a fresh record for a chat that has none and
    leaves an existing record alone. *)
Lemma cmd_start_keeps_or_creates c s :
  (cmd_start c s).1 = inr tt
  ∧ dict_get c (users (cmd_start c s).2)
    = Some (default (new_user c) (dict_get c (users s))).
Proof.
  run. destruct (dict_get c (users s)) as [prefs|] eqn:Hc; run.
  - by rewrite Hc.
  - by rewrite dict_get_set.
Qed.

Lemma cmd_subscribe_record c c' s :
  dict_get c' (users (cmd_subscribe c s).2)
  = if decide (c' = c)
    then Some (with_subscribed true
                 (default (new_user c) (dict_get c (users s))))
    else dict_get c' (users s).
Proof.
  run. destruct (dict_get c (users s)) as [prefs|] eqn:Hc; run.
  - rewrite dict_get_alter.
    destruct (decide (c' = c)); [by rewrite Hc|done].
  - rewrite dict_get_alter.
    destruct (decide (c' = c)); [by rewrite dict_get_set|].
    by apply dict_get_set_other.
Qed.

(** X8: after [cmd_subscribe] the chat has a record with [subscribed]
    true: the record it had, with its mode, filters and last notification,
    or a fresh record when it had none; the other chats are as before. *)
Theorem cmd_subscribe_subscribes c c' s :
  (cmd_subscribe c s).1 = inr tt
  ∧ dict_get c' (users (cmd_subscribe c s).2)
    = if decide (c' = c)
      then Some (with_subscribed true
                   (default (new_user c) (dict_get c (users s))))
      else dict_get c' (users s).
Proof.
  split; [|apply cmd_subscribe_record].
  run. by destruct (dict_get c (users s)).
Qed.

(** X9: [cmd_unsubscribe] clears [subscribed] in the record of the chat
    and keeps the rest of it; for a chat without a record it creates
    nothing.  A later [cmd_start] leaves the chat unsubscribed; a later
    [cmd_subscribe] sets the flag again on the same record. *)
Theorem cmd_unsubscribe_keeps_settings c c' s :
  (cmd_unsubscribe c s).1 = inr tt
  ∧ dict_get c' (users (cmd_unsubscribe c s).2)
    = (if decide (c' = c)
       then with_subscribed false <$> dict_get c (users s)
       else dict_get c' (users s))
  ∧ dict_get c (users (cmd_start c (cmd_unsubscribe c s).2).2)
    = Some (default (new_user c)
              (with_subscribed false <$> dict_get c (users s)))
  ∧ dict_get c (users (cmd_subscribe c (cmd_unsubscribe c s).2).2)
    = Some (with_subscribed true
              (default (new_user c) (dict_get c (users s)))).
Proof.
  assert (dict_get c (users (cmd_unsubscribe c s).2)
          = with_subscribed false <$> dict_get c (users s)) as Hafter.
  { run. destruct (dict_get c (users s)) as [prefs|] eqn:Hc; run.
    - by rewrite dict_get_alter, decide_True, Hc.
    - by rewrite Hc. }
  split; [|split; [|split]].
  - run. by destruct (dict_get c (users s)).
  - destruct (decide (c' = c)) as [->|Hne]; [done|].
    run. destruct (dict_get c (users s)) as [prefs|] eqn:Hc; run; [|done].
    by rewrite dict_get_alter, decide_False.
  - destruct (cmd_start_keeps_or_creates c (cmd_unsubscribe c s).2)
      as [_ ->].
    by rewrite Hafter.
  - rewrite cmd_subscribe_record, decide_True, Hafter by done.
    by destruct (dict_get c (users s)).
Qed.

(** X10: [cmd_stop] removes the record of the chat and no other; a
    [cmd_start] after it stores a fresh record, so the mode and the filters
    the chat had are gone. *)
Theorem cmd_stop_forgets_the_chat c c' s :
  (cmd_stop c s).1 = inr tt
  ∧ dict_get c' (users (cmd_stop c s).2)
    = (if decide (c' = c) then None else dict_get c' (users s))
  ∧ dict_get c (users (cmd_start c (cmd_stop c s).2).2) = Some (new_user c).
Proof.
  assert (∀ c', dict_get c' (users (cmd_stop c s).2)
                = if decide (c' = c) then None else dict_get c' (users s))
    as Hafter.
  { intros k. run. destruct (dict_get c (users s)) as [prefs|] eqn:Hc; run.
    - apply dict_get_del.
    - destruct (decide (k = c)) as [->|]; done. }
  split; [|split; [done|]].
  - run. by destruct (dict_get c (users s)).
  - destruct (cmd_start_keeps_or_creates c (cmd_stop c s).2)
      as [_ ->].
    by rewrite Hafter, decide_True.
Qed.
End registry_commands.

(** * Further properties of the jobs *)

Section jobs.
Import TelegramBot.
Implicit Types (s : TelegramBot.t) (c : Z) (us : Users)
  (ls : list PropertyData).

Lemma elem_of_concat {A} (x : A) (lss : list (list A)) :
  x ∈ concat lss ↔ ∃ l, x ∈ l ∧ l ∈ lss.
Proof.
  rewrite list_elem_of_In, List.in_concat. split.
  - intros (l & Hl & Hx). exists l. by rewrite !list_elem_of_In.
  - intros (l & Hx & Hl). exists l. by rewrite <- !list_elem_of_In.
Qed.

Lemma accepted_subseteq ok ls : accepted ok ls ⊆ ls.
Proof.
  induction ls as [|l ls IH]; simpl; [done|].
  destruct (ok l); [|apply list_subseteq_nil].
  intros x [->|Hx]%elem_of_cons; [by left|]. right. by apply IH.
Qed.

Lemma accepted_all ok ls : (∀ l, ok l = true) → accepted ok ls = ls.
Proof.
  intros Hok. induction ls as [|l ls IH]; simpl; [done|].
  by rewrite Hok, IH.
Qed.

Lemma delivered_subseteq ch (ms : list (Z * Message)) : delivered ch ms ⊆ ms.
Proof.
  induction ms as [|cm ms IH]; simpl; [done|].
  destruct (ch cm.1 cm.2); [|apply list_subseteq_nil].
  intros x [->|Hx]%elem_of_cons; [by left|]. right. by apply IH.
Qed.

Lemma delivered_all ch (ms : list (Z * Message)) :
  (∀ c m, ch c m = true) → delivered ch ms = ms.
Proof.
  intros Hok. induction ms as [|cm ms IH]; simpl; [done|].
  by rewrite Hok, IH.
Qed.

(** Setting [last_notification] changes no setting. *)
Lemma settings_dict_alter now c us :
  settings <$> dict_alter (with_last_notification now) c us = settings <$> us.
Proof.
  unfold dict_alter. rewrite <- list_fmap_compose.
  apply list_fmap_ext. intros i [k v] _. simpl.
  by destruct (decide (k = c)).
Qed.

(** The loop of [_send_notifications], with no assumption on the
    dictionary: what is sent, and that no setting changes. *)
Lemma notify_loop_outbox ls us s :
  ∃ s',
    for_each us (λ '(c, prefs), notify_subscriber ls c prefs) s = (inr tt, s')
    ∧ same_engine s s'
    ∧ outbox s' = outbox s ++ concat (delivered_to (channel s) ls <$> us)
    ∧ settings <$> users s' = settings <$> users s.
Proof.
  revert s. induction us as [|[c prefs] us IH]; intros s.
  - exists s. simpl. rewrite app_nil_r.
    split; [done|]. split; [apply same_engine_refl|done].
  - destruct (notify_subscriber_spec ls c prefs s)
      as (s1 & Hone & Hs1 & Hout1 & Hus1).
    destruct (IH s1) as (s2 & Hrest & Hs2 & Hout2 & Hus2).
    pose proof Hs1 as (Hseen & Hen & Hch & Hclk).
    exists s2. cbn [for_each].
    unfold mbind at 1, TelegramBot_bind at 1, bind at 1. rewrite Hone.
    split; [done|]. split; [by eapply same_engine_trans|]. split.
    + rewrite Hout2, Hout1, Hch, fmap_cons. cbn [concat].
      by rewrite <- app_assoc.
    + rewrite Hus2, Hus1.
      destruct (fully_notified _ _ _); [apply settings_dict_alter|done].
Qed.

(** The fetch cycle in full: the value, the seen-set, and the outbox. *)
Lemma check_new_listings_outbox (o : SearchOutcome) s :
  ∃ s',
    _check_new_listings o s = (inr (new_listings_of (seen_listings s) o), s')
    ∧ seen_listings s'
      = list_to_set (PropertyData.id <$> new_listings_of (seen_listings s) o)
        ∪ seen_listings s
    ∧ notifications_enabled s' = notifications_enabled s
    ∧ channel s' = channel s
    ∧ outbox s'
      = outbox s
        ++ (if notifications_enabled s
            then concat (delivered_to (channel s)
                           (new_listings_of (seen_listings s) o) <$> users s)
            else [])
    ∧ settings <$> users s' = settings <$> users s
    ∧ (notifications_enabled s = false →
       s' = set_seen_listings
              (list_to_set
                 (PropertyData.id <$> new_listings_of (seen_listings s) o)
               ∪ seen_listings s) s).
Proof.
  unfold new_listings_of, _check_new_listings, try_except.
  unfold mbind at 1, TelegramBot_bind at 1, bind at 1.
  rewrite collect_new_spec. cbn [app].
  set (new := unseen_at_start _ _).
  set (s1 := set_seen_listings _ s).
  unfold mbind at 1, TelegramBot_bind at 1, bind at 1, gets at 1.
  change (notifications_enabled s1) with (notifications_enabled s).
  destruct (notifications_enabled s) eqn:Hen.
  - destruct (is_empty new) eqn:Hnew; cbn [negb andb].
    + exists s1. destruct new; [|done].
      replace (concat _) with (@nil (Z * Message)).
      * rewrite app_nil_r. by repeat split.
      * induction (users s) as [|[c p] us IH]; [done|].
        rewrite fmap_cons. cbn [concat]. rewrite <- IH.
        unfold delivered_to. cbn [fst snd]. by destruct (subscribed p).
    + unfold _send_notifications.
      unfold mbind at 1 2, TelegramBot_bind at 1 2, bind at 1 2, gets at 1.
      destruct (notify_loop_outbox new (users s1) s1)
        as (s2 & Hrun & (Hseen & Hen2 & Hch & Hclk) & Hout & Hset).
      unfold mbind at 1, TelegramBot_bind at 1, bind at 1. rewrite Hrun.
      exists s2. split; [done|].
      rewrite Hseen, Hen2, Hch, Hout, Hset.
      subst s1. cbn [seen_listings notifications_enabled channel outbox users
                       set_seen_listings].
      by repeat split.
  - rewrite andb_false_r. exists s1. rewrite app_nil_r. by repeat split.
Qed.
Lemma daily_summary_as_update ls c (prefs : UserPreferences) :
  daily_summary ls c prefs
  = match daily_update ls (c, prefs) with
    | Some cm => send_message cm.1 cm.2
    | None => mret tt
    end.
Proof.
  unfold daily_summary, daily_update. cbn [fst snd].
  destruct (subscribed prefs), (bool_decide (notification_mode prefs = DAILY)),
    (_filter_listings ls (filters prefs)); done.
Qed.

Lemma weekly_summary_as_update ls c (prefs : UserPreferences) :
  weekly_summary ls c prefs
  = match weekly_update ls (c, prefs) with
    | Some cm => send_message cm.1 cm.2
    | None => mret tt
    end.
Proof.
  unfold weekly_summary, weekly_update. cbn [fst snd].
  destruct (subscribed prefs), (bool_decide (notification_mode prefs = WEEKLY)),
    (_filter_listings ls (filters prefs)); done.
Qed.

(** A loop that sends each subscriber its update, with no [try] inside:
    the updates go out in the order of the dictionary up to the first
    refusal, where the loop raises. *)
Lemma update_loop_spec (body : Z → UserPreferences → M unit)
    (upd : Z * UserPreferences → option (Z * Message)) us s :
  (∀ c p, body c p = match upd (c, p) with
                     | Some cm => send_message cm.1 cm.2
                     | None => mret tt
                     end) →
  ∃ r,
    for_each us (λ '(c, p), body c p) s
    = (r, set_outbox (outbox s ++ delivered (channel s) (omap upd us)) s)
    ∧ (forallb (λ cm, channel s cm.1 cm.2) (omap upd us) = true → r = inr tt)
    ∧ (forallb (λ cm, channel s cm.1 cm.2) (omap upd us) = false →
       ∃ e, r = inl e).
Proof.
  intros Hbody. revert s. induction us as [|[c p] us IH]; intros s.
  - exists (inr tt). simpl. rewrite app_nil_r. by destruct s.
  - cbn [for_each omap list_omap].
    unfold mbind at 1, TelegramBot_bind at 1, bind at 1. rewrite Hbody.
    destruct (upd (c, p)) as [[c0 m]|]; cbn [fst snd].
    + unfold send_message at 1. cbn [delivered forallb fst snd].
      destruct (channel s c0 m) eqn:Hok.
      * destruct (IH (set_outbox (outbox s ++ [(c0, m)]) s))
          as (r & Hrun & Hall & Hsome).
        exists r. rewrite Hrun. cbn [channel outbox set_outbox] in *.
        rewrite <- app_assoc. by split.
      * exists (inl (DeliveryError c0 m)). unfold raise.
        rewrite app_nil_r. split; [by destruct s|]. split; [done|by eexists].
    + destruct (IH s) as (r & Hrun & Hall & Hsome).
      exists r. unfold mret at 1, TelegramBot_ret at 1, ret at 1.
      by rewrite Hrun.
Qed.

Lemma omap_settings (upd : Z * UserPreferences → option (Z * Message))
    us us' :
  (∀ e e', settings e = settings e' → upd e = upd e') →
  settings <$> us = settings <$> us' →
  omap upd us = omap upd us'.
Proof.
  intros Hupd. revert us'. induction us as [|e us IH]; intros [|e' us'];
    try done.
  rewrite !fmap_cons. intros [= H1 H2 H3 H4 Hrest].
  cbn [omap list_omap]. fold (omap upd us) (omap upd us').
  rewrite (Hupd e e') by (unfold settings; congruence).
  by rewrite (IH us').
Qed.

Lemma daily_update_settings ls e e' :
  settings e = settings e' → daily_update ls e = daily_update ls e'.
Proof.
  unfold settings, daily_update. intros [= -> -> -> ->]. done.
Qed.

Lemma weekly_update_settings ls e e' :
  settings e = settings e' → weekly_update ls e = weekly_update ls e'.
Proof.
  unfold settings, weekly_update. intros [= -> -> -> ->]. done.
Qed.

Lemma daily_update_nil e : daily_update [] e = None.
Proof.
  unfold daily_update. simpl. by rewrite andb_false_r.
Qed.

Lemma weekly_update_nil e : weekly_update [] e = None.
Proof.
  unfold weekly_update. simpl. by rewrite andb_false_r.
Qed.

(** A summary job with notifications enabled, whatever the loop body is
    called: the fetch cycle, then the updates up to the first refusal. *)
Lemma summary_job_spec (body : list PropertyData → Z → UserPreferences → M unit)
    (upd : list PropertyData → Z * UserPreferences → option (Z * Message))
    (record : Exception → LogRecord) (o : SearchOutcome) s :
  (∀ ls c p, body ls c p = match upd ls (c, p) with
                           | Some cm => send_message cm.1 cm.2
                           | None => mret tt
                           end) →
  (∀ ls e e', settings e = settings e' → upd ls e = upd ls e') →
  (∀ e, upd [] e = None) →
  notifications_enabled s = true →
  ∃ s',
    try_except
      (listings ← _check_new_listings o;
       if is_empty listings then mret tt
       else us ← gets users;
            for_each us (λ '(c, prefs), body listings c prefs))
      (λ e, logger_error (record e)) s
    = (inr tt, s')
    ∧ outbox s'
      = outbox s
        ++ concat (delivered_to (channel s)
                     (new_listings_of (seen_listings s) o) <$> users s)
        ++ delivered (channel s)
             (omap (upd (new_listings_of (seen_listings s) o)) (users s)).
Proof.
  intros Hbody Hset Hnil Hen.
  destruct (check_new_listings_outbox o s)
    as (s1 & Hrun & _ & _ & Hch & Hout & Hsettings & _).
  rewrite Hen in Hout.
  unfold try_except.
  unfold mbind at 1, TelegramBot_bind at 1, bind at 1. rewrite Hrun.
  remember (new_listings_of (seen_listings s) o) as new eqn:Hdef.
  clear Hdef. destruct (is_empty new) eqn:Hnew.
  - exists s1. split; [done|]. destruct new; [|discriminate Hnew].
    rewrite Hout. f_equal.
    assert (∀ us, omap (upd []) us = []) as ->; [|by rewrite app_nil_r].
    intros us. induction us as [|e us IH]; [done|].
    cbn [omap list_omap]. by rewrite Hnil.
  - unfold mbind at 1, TelegramBot_bind at 1, bind at 1, gets at 1.
    destruct (update_loop_spec (body new) (upd new) (users s1) s1 (Hbody new))
      as (r & Hloop & Hall & Hsome).
    rewrite Hloop.
    rewrite (omap_settings (upd new) (users s1) (users s) (Hset new) Hsettings),
      Hch in *.
    destruct (forallb _ (omap (upd new) (users s))).
    + rewrite (Hall eq_refl). eexists. split; [done|].
      cbn [outbox set_outbox]. by rewrite Hout, <- app_assoc.
    + destruct (Hsome eq_refl) as [e ->]. eexists. split; [done|].
      cbn [outbox set_outbox set_log]. by rewrite Hout, <- app_assoc.
Qed.

(** A failed source leaves the bot as it was (restated here for the
    commands). *)
Lemma fetch_cycle_failure_leaves_bot (o : SearchOutcome) s :
  source_failed o = true → _check_new_listings o s = (inr [], s).
Proof.
  intros Hfail.
  destruct (check_new_listings_spec o s) as (s' & Hrun & _ & Hsame).
  rewrite Hrun, (Hsame Hfail). do 2 f_equal.
  destruct o as [|[] rows]; done.
Qed.

(** The interval job is the fetch cycle with its value dropped. *)
Lemma interval_job_run (o : SearchOutcome) s :
  fire Interval o s = (inr tt, (_check_new_listings o s).2).
Proof.
  destruct (check_new_listings_outbox o s) as (s1 & Hrun & _).
  unfold fire. unfold mbind, TelegramBot_bind, bind. by rewrite Hrun.
Qed.

(** The two summary jobs with notifications enabled. *)
Lemma daily_job_run (o : SearchOutcome) s :
  notifications_enabled s = true →
  ∃ s',
    fire DailyCron o s = (inr tt, s')
    ∧ outbox s'
      = outbox s
        ++ concat (delivered_to (channel s)
                     (new_listings_of (seen_listings s) o) <$> users s)
        ++ delivered (channel s)
             (omap (daily_update (new_listings_of (seen_listings s) o))
                (users s)).
Proof.
  intros Hen.
  destruct (summary_job_spec daily_summary daily_update ErrorSendingDaily o s
              daily_summary_as_update daily_update_settings
              daily_update_nil Hen) as (sd & Hd & Hdout).
  exists sd. split; [|done].
  unfold fire, _send_daily_notifications.
  unfold mbind at 1, TelegramBot_bind at 1, bind at 1, gets at 1.
  by rewrite Hen.
Qed.

Lemma weekly_job_run (o : SearchOutcome) s :
  notifications_enabled s = true →
  ∃ s',
    fire WeeklyCron o s = (inr tt, s')
    ∧ outbox s'
      = outbox s
        ++ concat (delivered_to (channel s)
                     (new_listings_of (seen_listings s) o) <$> users s)
        ++ delivered (channel s)
             (omap (weekly_update (new_listings_of (seen_listings s) o))
                (users s)).
Proof.
  intros Hen.
  destruct (summary_job_spec weekly_summary weekly_update ErrorSendingWeekly o s
              weekly_summary_as_update weekly_update_settings
              weekly_update_nil Hen) as (sw & Hw & Hwout).
  exists sw. split; [|done].
  unfold fire, _send_weekly_notifications.
  unfold mbind at 1, TelegramBot_bind at 1, bind at 1, gets at 1.
  by rewrite Hen.
Qed.

(** With notifications disabled no job sends anything. *)
Lemma disabled_job_outbox (job : Cadence) (o : SearchOutcome) s :
  notifications_enabled s = false → outbox (fire job o s).2 = outbox s.
Proof.
  intros Hen. destruct job.
  - rewrite interval_job_run.
    destruct (check_new_listings_outbox o s)
      as (s1 & Hrun & _ & _ & _ & Hout & _).
    rewrite Hrun, Hen, app_nil_r in *. done.
  - unfold fire, _send_daily_notifications.
    unfold mbind, TelegramBot_bind, bind, gets. by rewrite Hen.
  - unfold fire, _send_weekly_notifications.
    unfold mbind, TelegramBot_bind, bind, gets. by rewrite Hen.
Qed.

(** The listing messages of a run go to subscribed records, for new
    listings that match. *)
Lemma listing_messages_sound (o : SearchOutcome) s :
  Forall
    (λ cm, ∃ prefs l,
       (cm.1, prefs) ∈ users s
       ∧ subscribed prefs = true
       ∧ cm.2 = NewListing l
       ∧ l ∈ get_owner_direct_listings o
       ∧ (PropertyData.id l ∉ seen_listings s)
       ∧ listing_matches (filters prefs) l = true)
    (concat (delivered_to (channel s)
               (new_listings_of (seen_listings s) o) <$> users s)).
Proof.
  apply Forall_forall. intros [c m] Hin.
  apply elem_of_concat in Hin as (msgs & Hin & Hmsgs).
  apply list_elem_of_fmap in Hmsgs as ([c0 prefs] & -> & Hentry).
  unfold delivered_to in Hin. cbn [fst snd] in Hin.
  destruct (subscribed prefs) eqn:Hsub; [|by apply elem_of_nil in Hin].
  apply list_elem_of_fmap in Hin as (l & [= -> ->] & Hl).
  apply accepted_subseteq in Hl.
  apply list_elem_of_In, List.filter_In in Hl as [Hl Hmatch].
  apply unseen_at_start_In in Hl as [Hl Hnew].
  apply first_by_id_In in Hl.
  exists prefs, l. cbn [fst snd].
  split; [done|]. split; [done|]. split; [done|].
  split; [by apply list_elem_of_In|]. by split.
Qed.

(** X11: the messages of one run of the interval job.  With notifications
    enabled it sends, subscriber by subscriber in the order of the users
    dictionary, each subscribed subscriber the new listings its filters
    match, in source order, up to the first delivery the channel refuses
    for that subscriber; with notifications disabled it sends nothing.  It
    returns normally and changes no setting of any subscriber. *)
Theorem interval_job_outbox (o : SearchOutcome) s :
  (fire Interval o s).1 = inr tt
  ∧ outbox (fire Interval o s).2
    = outbox s
      ++ (if notifications_enabled s
          then concat (delivered_to (channel s)
                         (new_listings_of (seen_listings s) o) <$> users s)
          else [])
  ∧ settings <$> users (fire Interval o s).2 = settings <$> users s.
Proof.
  rewrite interval_job_run.
  destruct (check_new_listings_outbox o s)
    as (s1 & Hrun & _ & _ & _ & Hout & Hset & _).
  by rewrite Hrun.
Qed.

(** X12: what the interval job never sends.  Every message it adds to the
    outbox is one listing for one chat such that the chat has a subscribed
    record, the listing came from the source in this run, its id was not in
    the seen-set when the run started, and it matches the filters of that
    record. *)
Theorem interval_job_sends_only_new_matches (o : SearchOutcome) s :
  ∃ sent,
    (outbox (fire Interval o s).2 = outbox s ++ sent)
    ∧ Forall
        (λ cm, ∃ prefs l,
           (cm.1, prefs) ∈ users s
           ∧ subscribed prefs = true
           ∧ cm.2 = NewListing l
           ∧ l ∈ get_owner_direct_listings o
           ∧ (PropertyData.id l ∉ seen_listings s)
           ∧ listing_matches (filters prefs) l = true)
        sent.
Proof.
  rewrite interval_job_run.
  destruct (check_new_listings_outbox o s)
    as (s1 & Hrun & _ & _ & _ & Hout & _).
  rewrite Hrun. cbn [snd]. eexists. split; [exact Hout|].
  destruct (notifications_enabled s); [|done].
  apply listing_messages_sound.
Qed.

(** X13: the daily and the weekly job with notifications enabled.  Each
    first runs the fetch cycle, per-listing messages to every subscribed
    subscriber included, then sends the daily (weekly) subscribers their
    update in the order of the users dictionary, up to the first delivery
    the channel refuses: no later subscriber gets an update.  An update
    shows the first five (ten) matches and gives the number of all of
    them.  The job itself returns normally. *)
Theorem summary_jobs_outbox (o : SearchOutcome) s :
  notifications_enabled s = true →
  (fire DailyCron o s).1 = inr tt
  ∧ outbox (fire DailyCron o s).2
    = outbox s
      ++ concat (delivered_to (channel s)
                   (new_listings_of (seen_listings s) o) <$> users s)
      ++ delivered (channel s)
           (omap (daily_update (new_listings_of (seen_listings s) o))
              (users s))
  ∧ (fire WeeklyCron o s).1 = inr tt
  ∧ outbox (fire WeeklyCron o s).2
    = outbox s
      ++ concat (delivered_to (channel s)
                   (new_listings_of (seen_listings s) o) <$> users s)
      ++ delivered (channel s)
           (omap (weekly_update (new_listings_of (seen_listings s) o))
              (users s)).
Proof.
  intros Hen.
  destruct (daily_job_run o s Hen) as (sd & -> & Hd).
  destruct (weekly_job_run o s Hen) as (sw & -> & Hw).
  by repeat split.
Qed.

Lemma summary_jobs_outbox_witness :
  outbox
    (fire DailyCron (Responded true [Some flat_1; Some flat_2])
       (idle_bot [subscriber 5 DAILY {["price_max" := 100000%Q]}]
          channel_up)).2
  = [(5, NewListing flat_1); (5, DailyUpdate [flat_1] 1)].
Proof.
  destruct (summary_jobs_outbox (Responded true [Some flat_1; Some flat_2])
              (idle_bot [subscriber 5 DAILY {["price_max" := 100000%Q]}]
                 channel_up) eq_refl) as (_ & -> & _).
  vm_compute. reflexivity.
Defined.

(** X14: with notifications disabled the fetch cycle still returns the
    new listings and marks them seen, and changes nothing else: no message
    and no log record; the daily and the weekly job do nothing at all, the
    source is not even asked; and [cmd_notify] announces the number of new
    listings it found although none is sent. *)
Theorem disabled_notifications_consume_listings (o : SearchOutcome) s :
  notifications_enabled s = false →
  _check_new_listings o s
  = (inr (new_listings_of (seen_listings s) o),
     set_seen_listings
       (list_to_set (PropertyData.id <$> new_listings_of (seen_listings s) o)
        ∪ seen_listings s) s)
  ∧ fire DailyCron o s = (inr tt, s)
  ∧ fire WeeklyCron o s = (inr tt, s)
  ∧ (cmd_notify o s).1
    = inr [CheckingForNewListings;
           if is_empty (new_listings_of (seen_listings s) o)
           then NoNewListingsFound
           else FoundNewListings
                  (length (new_listings_of (seen_listings s) o))]
  ∧ outbox (cmd_notify o s).2 = outbox s.
Proof.
  intros Hen.
  destruct (check_new_listings_outbox o s) as (s1 & Hrun & _ & _ & _ & _ & _ & Hs1).
  unfold cmd_notify. unfold mbind at 1 2, TelegramBot_bind at 1 2, bind at 1 2.
  rewrite Hrun, (Hs1 Hen). split; [done|].
  split; [|split; [|split; by destruct (is_empty _)]].
  - unfold fire, _send_daily_notifications.
    unfold mbind, TelegramBot_bind, bind, gets. by rewrite Hen.
  - unfold fire, _send_weekly_notifications.
    unfold mbind, TelegramBot_bind, bind, gets. by rewrite Hen.
Qed.

Lemma disabled_notifications_consume_listings_witness :
  fire DailyCron (Responded true [Some flat_1])
    (TelegramBot.mk [subscriber 5 DAILY ∅] ∅ false channel_up 0 [] [])
  = (inr tt, TelegramBot.mk [subscriber 5 DAILY ∅] ∅ false channel_up 0 [] []).
Proof.
  destruct (disabled_notifications_consume_listings (Responded true [Some flat_1])
              (TelegramBot.mk [subscriber 5 DAILY ∅] ∅ false channel_up 0 [] [])
              eq_refl) as (_ & Hdaily & _).
  exact Hdaily.
Defined.

(** Whatever a job sends goes to a chat that has a subscribed record. *)
Lemma jobs_send_to_subscribed (job : Cadence) (o : SearchOutcome) s :
  ∃ sent,
    (outbox (fire job o s).2 = outbox s ++ sent)
    ∧ Forall (λ cm, ∃ prefs, (cm.1, prefs) ∈ users s ∧ subscribed prefs = true)
        sent.
Proof.
  assert (∀ ls, Forall (λ cm, ∃ prefs, (cm.1, prefs) ∈ users s
                              ∧ subscribed prefs = true)
                  (concat (delivered_to (channel s) ls <$> users s)))
    as Hlistings.
  { intros ls. apply Forall_forall. intros [c m] Hin.
    apply elem_of_concat in Hin as (msgs & Hin & Hmsgs).
    apply list_elem_of_fmap in Hmsgs as ([c0 prefs] & -> & Hentry).
    unfold delivered_to in Hin. cbn [fst snd] in Hin.
    destruct (subscribed prefs) eqn:Hsub; [|by apply elem_of_nil in Hin].
    apply list_elem_of_fmap in Hin as (l & [= -> ->] & Hl).
    by exists prefs. }
  assert (∀ (upd : Z * UserPreferences → option (Z * Message)),
            (∀ e cm, upd e = Some cm → cm.1 = e.1 ∧ subscribed e.2 = true) →
            Forall (λ cm, ∃ prefs, (cm.1, prefs) ∈ users s
                          ∧ subscribed prefs = true)
              (delivered (channel s) (omap upd (users s))))
    as Hupdates.
  { intros upd Hupd. apply Forall_forall. intros [c m] Hin.
    apply delivered_subseteq in Hin.
    apply list_elem_of_omap in Hin as ([c0 prefs] & Hentry & Hsome).
    destruct (Hupd _ _ Hsome) as [Hc Hsub]. cbn [fst snd] in Hc, Hsub.
    subst c0. by exists prefs. }
  assert (∀ ls e cm, daily_update ls e = Some cm
                     → cm.1 = e.1 ∧ subscribed e.2 = true) as Hdaily.
  { intros ls e cm. unfold daily_update.
    destruct (subscribed e.2); [|done].
    destruct (_ && _); [|done]. by intros [= <-]. }
  assert (∀ ls e cm, weekly_update ls e = Some cm
                     → cm.1 = e.1 ∧ subscribed e.2 = true) as Hweekly.
  { intros ls e cm. unfold weekly_update.
    destruct (subscribed e.2); [|done].
    destruct (_ && _); [|done]. by intros [= <-]. }
  destruct (notifications_enabled s) eqn:Hen.
  - destruct (daily_job_run o s Hen) as (sd & Hdrun & Hd).
    destruct (weekly_job_run o s Hen) as (sw & Hwrun & Hw).
    destruct (check_new_listings_outbox o s)
      as (s1 & Hrun & _ & _ & _ & Hi & _).
    rewrite Hen in Hi.
    destruct job; eexists.
    + rewrite interval_job_run, Hrun. split; [exact Hi|]. apply Hlistings.
    + rewrite Hdrun. split; [exact Hd|].
      apply Forall_app. split; [apply Hlistings|]. apply Hupdates, Hdaily.
    + rewrite Hwrun. split; [exact Hw|].
      apply Forall_app. split; [apply Hlistings|]. apply Hupdates, Hweekly.
  - exists []. rewrite app_nil_r. split; [|done].
    by apply disabled_job_outbox.
Qed.

Lemma inbox_app c (out1 out2 : list (Z * Message)) :
  inbox c (out1 ++ out2) = inbox c out1 ++ inbox c out2.
Proof. apply omap_app. Qed.

Lemma inbox_of_others c (out : list (Z * Message)) :
  Forall (λ cm, cm.1 ≠ c) out → inbox c out = [].
Proof.
  unfold inbox. induction 1 as [|cm out Hcm _ IH]; [done|].
  cbn [omap list_omap]. by rewrite decide_False, IH.
Qed.

(** The inbox of a chat without a subscribed record is left alone. *)
Lemma inbox_without_subscription (job : Cadence) (o : SearchOutcome) s c :
  (∀ prefs, (c, prefs) ∈ users s → subscribed prefs = false) →
  inbox c (outbox (fire job o s).2) = inbox c (outbox s).
Proof.
  intros Hunsub.
  destruct (jobs_send_to_subscribed job o s) as (sent & -> & Hsent).
  rewrite inbox_app, (inbox_of_others c sent), app_nil_r; [done|].
  eapply Forall_impl; [exact Hsent|].
  intros [c0 m] (prefs & Hentry & Hsub) Heq. cbn [fst] in *. subst c0.
  apply Hunsub in Hentry. congruence.
Qed.

(** X15: a chat all of whose records are unsubscribed, a chat with no
    record included, gets no message from any of the three jobs: the
    messages of the outbox for it are those that were there before, and
    whatever the job did send went to chats with a subscribed record. *)
Theorem unsubscribed_chat_gets_nothing (job : Cadence) (o : SearchOutcome)
    s c :
  (∀ prefs, (c, prefs) ∈ users s → subscribed prefs = false) →
  inbox c (outbox (fire job o s).2) = inbox c (outbox s)
  ∧ ∃ sent,
      (outbox (fire job o s).2 = outbox s ++ sent)
      ∧ Forall (λ cm, cm.1 ≠ c) sent.
Proof.
  intros Hunsub. split; [by apply inbox_without_subscription|].
  destruct (jobs_send_to_subscribed job o s) as (sent & Hout & Hsent).
  exists sent. split; [done|].
  eapply Forall_impl; [exact Hsent|].
  intros [c0 m] (prefs & Hentry & Hsub) Heq. cbn [fst] in *. subst c0.
  apply Hunsub in Hentry. congruence.
Qed.

Lemma unsubscribed_chat_gets_nothing_witness :
  inbox 2
    (outbox (fire Interval (Responded true [Some flat_1])
               (idle_bot [subscriber 1 IMMEDIATE ∅] channel_up)).2)
  = [].
Proof.
  apply (unsubscribed_chat_gets_nothing Interval (Responded true [Some flat_1])
           (idle_bot [subscriber 1 IMMEDIATE ∅] channel_up) 2).
  intros prefs Hin. apply list_elem_of_singleton in Hin. discriminate Hin.
Defined.

Lemma dict_alter_unsubscribes c us (prefs : UserPreferences) :
  (c, prefs) ∈ dict_alter (with_subscribed false) c us →
  subscribed prefs = false.
Proof.
  unfold dict_alter. intros Hin.
  apply list_elem_of_fmap in Hin as ([k v] & Heq & _). cbn [fst snd] in Heq.
  destruct (decide (k = c)); [by injection Heq as -> ->|congruence].
Qed.

Lemma dict_del_removes c us (prefs : UserPreferences) :
  (c, prefs) ∉ dict_del c us.
Proof.
  induction us as [|[k v] us IH]; simpl; [apply not_elem_of_nil|].
  destruct (decide (k = c)) as [->|Hne]; [done|].
  apply not_elem_of_cons. split; [congruence|done].
Qed.

Lemma dict_get_None_absent c us (prefs : UserPreferences) :
  dict_get c us = None → (c, prefs) ∉ us.
Proof.
  induction us as [|[k w] us IH]; simpl.
  - intros _. apply not_elem_of_nil.
  - destruct (decide (k = c)) as [->|Hne]; [done|].
    intros Hc. apply not_elem_of_cons. split; [congruence|by apply IH].
Qed.

(** X16: after [cmd_unsubscribe], and after [cmd_stop], no job sends the
    chat anything: interval, daily and weekly job alike leave the messages
    of the outbox for that chat as they were before the command. *)
Theorem no_message_after_unsubscribe_or_stop (job : Cadence)
    (o : SearchOutcome) s c :
  inbox c (outbox (fire job o (cmd_unsubscribe c s).2).2) = inbox c (outbox s)
  ∧ inbox c (outbox (fire job o (cmd_stop c s).2).2) = inbox c (outbox s).
Proof.
  split.
  - rewrite inbox_without_subscription.
    + unfold cmd_unsubscribe, mbind, TelegramBot_bind, bind, gets, modify,
        _save_users.
      by destruct (dict_get c (users s)).
    + intros prefs.
      unfold cmd_unsubscribe, mbind, TelegramBot_bind, bind, gets, modify,
        _save_users.
      destruct (dict_get c (users s)) as [v|] eqn:Hc; cbn [fst snd users set_users].
      * apply dict_alter_unsubscribes.
      * intros Hin. by destruct (dict_get_None_absent c (users s) prefs Hc).
  - rewrite inbox_without_subscription.
    + unfold cmd_stop, mbind, TelegramBot_bind, bind, gets, modify, _save_users.
      by destruct (dict_get c (users s)).
    + intros prefs.
      unfold cmd_stop, mbind, TelegramBot_bind, bind, gets, modify, _save_users.
      destruct (dict_get c (users s)) as [v|] eqn:Hc; cbn [fst snd users set_users].
      * intros Hin. by apply dict_del_removes in Hin.
      * intros Hin. by destruct (dict_get_None_absent c (users s) prefs Hc).
Qed.

(** X17: [cmd_notify] runs the fetch cycle, so every subscribed chat is
    served, not the asking chat alone, and replies with the number of new
    listings, or with "no new listings" when there is none; that is also
    its reply, with the bot unchanged, when the source raised or answered
    without success. *)
Theorem cmd_notify_reports_the_fetch (o : SearchOutcome) s
    (rows : list (option PropertyData)) :
  (cmd_notify o s).2 = (_check_new_listings o s).2
  ∧ (cmd_notify o s).1
    = inr [CheckingForNewListings;
           if is_empty (new_listings_of (seen_listings s) o)
           then NoNewListingsFound
           else FoundNewListings
                  (length (new_listings_of (seen_listings s) o))]
  ∧ cmd_notify Raised s
    = (inr [CheckingForNewListings; NoNewListingsFound], s)
  ∧ cmd_notify (Responded false rows) s
    = (inr [CheckingForNewListings; NoNewListingsFound], s).
Proof.
  destruct (check_new_listings_outbox o s) as (s1 & Hrun & _).
  unfold cmd_notify. unfold mbind, TelegramBot_bind, bind. rewrite Hrun.
  split; [by destruct (is_empty _)|].
  split; [by destruct (is_empty _)|].
  by rewrite !fetch_cycle_failure_leaves_bot.
Qed.
End jobs.

(** * Further properties of the filter engine *)

Section filter_bounds.
Implicit Types (filters : Filters) (l : PropertyData)
  (ls : list PropertyData).

#[local] Ltac unfold_tests :=
  rewrite ?listing_matches_tests;
  unfold price_check, below_bound, above_bound, float_below, float_above,
    int_below, int_above.

Lemma num_lt_succ (p : Z) : num_lt (inject_Z p) (inject_Z (p + 1)) = true.
Proof.
  unfold num_lt. apply negb_true_iff, not_true_is_false.
  rewrite Qle_bool_iff, <- Zle_Qle. lia.
Qed.

Lemma num_lt_true (x y : Q) : num_lt x y = true ↔ (x < y)%Q.
Proof.
  unfold num_lt. rewrite negb_true_iff, <- not_true_iff_false, Qle_bool_iff.
  split; [apply Qnot_le_lt|apply Qlt_not_le].
Qed.

(** X18: a filter that holds none of the six bound keys, the empty filter
    or one with other keys only, lets every listing through, unchanged and
    in order. *)
Theorem filter_without_bounds_keeps_all filters ls :
  (∀ key, key ∈ bound_keys → filters !! key = None) →
  _filter_listings ls filters = ls.
Proof.
  intros Hkeys.
  assert (∀ l, listing_matches filters l = true) as Hall.
  { intros l. unfold_tests.
    by rewrite !Hkeys by (unfold bound_keys; set_solver). }
  unfold _filter_listings. induction ls as [|l ls IH]; simpl; [done|].
  by rewrite Hall, IH.
Qed.

Lemma filter_without_bounds_keeps_all_witness :
  _filter_listings [flat_1; flat_2] {["county" := 9%Q]} = [flat_1; flat_2]
  ∧ _filter_listings [flat_1; flat_2] ∅ = [flat_1; flat_2].
Proof.
  split.
  - apply (filter_without_bounds_keeps_all {["county" := 9%Q]} [flat_1; flat_2]).
    intros key Hkey. apply lookup_singleton_ne. intros <-.
    unfold bound_keys in Hkey.
    repeat (apply elem_of_cons in Hkey as [Hkey|Hkey]; [discriminate Hkey|]).
    by apply elem_of_nil in Hkey.
  - apply (filter_without_bounds_keeps_all ∅ [flat_1; flat_2]).
    intros key _. apply lookup_empty.
Defined.

(** X19: a filter whose [price_min] is above its [price_max] lets no
    listing through. *)
Theorem crossed_price_bounds_match_nothing filters ls (lo hi : Q) :
  filters !! "price_min" = Some lo →
  filters !! "price_max" = Some hi →
  num_gt lo hi = true →
  _filter_listings ls filters = [].
Proof.
  intros Hlo Hhi Hcross.
  assert (∀ l, listing_matches filters l = false) as Hnone.
  { intros l. unfold_tests. rewrite Hlo, Hhi.
    destruct (num_lt (inject_Z (PropertyData.price l)) lo) eqn:Hbelow; [done|].
    assert (num_gt (inject_Z (PropertyData.price l)) hi = true) as ->; [|done].
    unfold num_gt in *. apply num_lt_true. apply num_lt_true in Hcross.
    eapply Qlt_le_trans; [exact Hcross|].
    unfold num_lt in Hbelow.
    by apply negb_false_iff, Qle_bool_iff in Hbelow. }
  unfold _filter_listings. induction ls as [|l ls IH]; simpl; [done|].
  by rewrite Hnone.
Qed.

Lemma crossed_price_bounds_match_nothing_witness :
  _filter_listings [flat_1; flat_2]
    {["price_min" := 100000%Q; "price_max" := 90000%Q]} = [].
Proof.
  apply (crossed_price_bounds_match_nothing
           {["price_min" := 100000%Q; "price_max" := 90000%Q]}
           [flat_1; flat_2] 100000 90000); reflexivity.
Defined.

(** X20: [price_min] is inclusive: for a listing of price [P] a filter
    with [price_min = P + 1] rejects it whatever its other keys, and with
    [price_min = P] the listing matches exactly when it matches the filter
    without [price_min]. *)
Theorem price_min_bound_inclusive filters l :
  listing_matches
    (<["price_min" := inject_Z (PropertyData.price l + 1)]> filters) l = false
  ∧ listing_matches
      (<["price_min" := inject_Z (PropertyData.price l)]> filters) l
    = listing_matches (delete "price_min" filters) l.
Proof.
  split.
  - unfold_tests. simplify_map_eq. by rewrite num_lt_succ.
  - unfold_tests. simplify_map_eq. by rewrite num_lt_irrefl.
Qed.

(** X21: a number of rooms that is set and not zero is tested, both
    bounds inclusive: with [rooms = r], [rooms_min = r] and [rooms_max = r]
    change nothing, [rooms_min = r + 1] and [rooms_max = r - 1] reject. *)
Theorem rooms_bounds_inclusive filters l (r : Z) :
  PropertyData.rooms l = Some r →
  r ≠ 0 →
  listing_matches (<["rooms_min" := inject_Z (r + 1)]> filters) l = false
  ∧ listing_matches (<["rooms_max" := inject_Z (r - 1)]> filters) l = false
  ∧ listing_matches (<["rooms_min" := inject_Z r]> filters) l
    = listing_matches (delete "rooms_min" filters) l
  ∧ listing_matches (<["rooms_max" := inject_Z r]> filters) l
    = listing_matches (delete "rooms_max" filters) l.
Proof.
  intros Hrooms Hr.
  assert (truthy_int (Some r) = true) as Htruthy
    by (simpl; by apply negb_true_iff, Z.eqb_neq).
  repeat split; unfold_tests; rewrite Hrooms, Htruthy; simplify_map_eq;
    unfold num_gt;
    rewrite ?num_lt_succ, ?num_lt_pred, ?num_lt_irrefl, ?andb_false_r;
    done.
Qed.

Lemma rooms_bounds_inclusive_witness :
  listing_matches {["rooms_min" := inject_Z (2 + 1)]} flat_1 = false.
Proof.
  apply (rooms_bounds_inclusive ∅ flat_1 2); [reflexivity|lia].
Defined.

(** X22: an area that is set and not zero is tested, both bounds
    inclusive: bounds equal to the area change nothing, a minimum above it
    and a maximum below it reject. *)
Theorem area_bounds_inclusive filters l (a lo hi : Q) :
  PropertyData.area l = Some a →
  Qeq_bool a 0 = false →
  num_lt a hi = true →
  num_gt a lo = true →
  listing_matches (<["area_min" := hi]> filters) l = false
  ∧ listing_matches (<["area_max" := lo]> filters) l = false
  ∧ listing_matches (<["area_min" := a]> filters) l
    = listing_matches (delete "area_min" filters) l
  ∧ listing_matches (<["area_max" := a]> filters) l
    = listing_matches (delete "area_max" filters) l.
Proof.
  intros Harea Ha Hhi Hlo.
  assert (truthy_float (Some a) = true) as Htruthy by (simpl; by rewrite Ha).
  split; [|split; [|split]].
  - unfold_tests. rewrite Harea, Htruthy. simplify_map_eq.
    by rewrite Hhi, ?andb_false_r.
  - unfold_tests. rewrite Harea, Htruthy. simplify_map_eq.
    by rewrite Hlo, ?andb_false_r.
  - unfold_tests. rewrite Harea, Htruthy. simplify_map_eq.
    by rewrite num_lt_irrefl.
  - unfold_tests. rewrite Harea, Htruthy. simplify_map_eq.
    unfold num_gt. by rewrite num_lt_irrefl.
Qed.

Lemma area_bounds_inclusive_witness :
  listing_matches {["area_min" := 50%Q]} flat_1 = false.
Proof.
  apply (area_bounds_inclusive ∅ flat_1 45 40 50); reflexivity.
Defined.
End filter_bounds.


(** * Further properties of the listing source *)

Section search_url.
Import KVeeScraper.

(** Appending strings is associative, and a step of the URL loop only
    appends. *)
Lemma append_assoc (s1 s2 s3 : string) :
  (s1 +:+ s2) +:+ s3 = s1 +:+ (s2 +:+ s3).
Proof.
  induction s1 as [|ch s1 IH]; [done|].
  change (String ch ((s1 +:+ s2) +:+ s3) = String ch (s1 +:+ (s2 +:+ s3))).
  by rewrite IH.
Qed.

Lemma append_nil_r (s : string) : s +:+ "" = s.
Proof.
  induction s as [|ch s IH]; [done|].
  change (String ch (s +:+ "") = String ch s). by rewrite IH.
Qed.

Lemma add_items_appends (items : list Atom) (url key : string) (n : nat) :
  ∃ rest, add_items url key n items = url +:+ rest.
Proof.
  revert url n. induction items as [|item items IH]; intros url n; simpl.
  - exists "". by rewrite append_nil_r.
  - destruct (IH (url +:+ "&" +:+ key +:+ "%5B" +:+ pretty n +:+ "%5D="
                      +:+ format_atom item) (S n)) as [rest ->].
    eexists. by rewrite append_assoc.
Qed.

Lemma add_param_appends (url : string) (kv : string * ParamValue) :
  ∃ rest, add_param url kv = url +:+ rest.
Proof.
  unfold add_param. destruct kv.2; try by eexists.
  - exists "". by rewrite append_nil_r.
  - apply add_items_appends.
  - exists "". by rewrite append_nil_r.
  - exists "". by rewrite append_nil_r.
Qed.

Lemma foldl_add_param_appends (params : Params) (url : string) :
  ∃ rest, foldl add_param url params = url +:+ rest.
Proof.
  revert url. induction params as [|kv params IH]; intros url; simpl.
  - exists "". by rewrite append_nil_r.
  - destruct (add_param_appends url kv) as [r1 ->].
    destruct (IH (url +:+ r1)) as [r2 ->].
    eexists. by rewrite append_assoc.
Qed.

(** X23: every URL [get_owner_direct_listings] requests starts with the
    search address, page size 100 included, followed by the deal type as a
    number, the county, the page size once more and
    [only_private_users=1]: the search is always for owner direct
    listings. *)
Theorem search_url_owner_direct (a : SearchArgs) :
  ∃ rest,
    search_url a
    = SEARCH_URL +:+ "&deal_type=" +:+ pretty (DealType_value (deal_type a))
        +:+ "&county=" +:+ pretty (county a)
        +:+ "&page_size=" +:+ pretty (page_size a)
        +:+ "&only_private_users=1" +:+ rest.
Proof.
  assert (∃ tail,
            search_url a
            = foldl add_param SEARCH_URL
                ([("deal_type", VInt (DealType_value (deal_type a)));
                  ("county", VInt (county a));
                  ("page_size", VInt (page_size a));
                  ("only_private_users", VInt 1)] ++ tail)) as [tail ->].
  { unfold search_url, search_params.
    destruct (property_type a), (truthy_int (price_min a)),
      (truthy_int (price_max a)), (area_min a) as [[z1|q1]|],
      (area_max a) as [[z2|q2]|], (truthy_int (rooms_min a)),
      (truthy_int (rooms_max a)).
    all: repeat match goal with
                | |- context [truthy_number ?x] => destruct (truthy_number x)
                end.
    all: eexists; reflexivity. }
  rewrite foldl_app.
  destruct (foldl_add_param_appends tail
              (foldl add_param SEARCH_URL
                   [("deal_type", VInt (DealType_value (deal_type a)));
                    ("county", VInt (county a));
                    ("page_size", VInt (page_size a));
                    ("only_private_users", VInt 1)])) as [rest ->].
  exists rest. cbn [foldl add_param fst snd].
  by rewrite !append_assoc.
Qed.
(** X24: an area bound given as a [float] is left out of the URL, as a
    bound that is missing or zero is: the request is the one without that
    bound.  With the arguments of the fetch cycle, where the bound is the
    integer 20, the URL has [area_min=20]; with 20.0 it has no [area_min]. *)
Theorem float_area_bound_is_dropped (a : SearchArgs) (q : Q) :
  search_url (with_area_min (Some (Float q)) a)
  = search_url (with_area_min None a)
  ∧ search_url (with_area_max (Some (Float q)) a)
    = search_url (with_area_max None a)
  ∧ search_url fetch_cycle_query
    = "https://www.kv.ee/?act=search.simple&search_type=new&page_size=100&deal_type=3&county=9&page_size=100&only_private_users=1&price_min=50000&price_max=500000&area_min=20&rooms_min=1"
  ∧ search_url (with_area_min (Some (Float 20)) fetch_cycle_query)
    = "https://www.kv.ee/?act=search.simple&search_type=new&page_size=100&deal_type=3&county=9&page_size=100&only_private_users=1&price_min=50000&price_max=500000&rooms_min=1".
Proof.
  split; [|split; [|split; by vm_compute]].
  - unfold search_url, search_params, with_area_min.
    cbn [county deal_type property_type price_min price_max area_min
           area_max rooms_min rooms_max page_size].
    destruct (property_type a), (truthy_int (price_min a)),
      (truthy_int (price_max a)), (truthy_number (Some (Float q))),
      (area_max a) as [[z|q']|], (truthy_int (rooms_min a)),
      (truthy_int (rooms_max a)).
    all: repeat match goal with
                | |- context [truthy_number ?x] => destruct (truthy_number x)
                end.
    all: reflexivity.
  - unfold search_url, search_params, with_area_max.
    cbn [county deal_type property_type price_min price_max area_min
           area_max rooms_min rooms_max page_size].
    destruct (property_type a), (truthy_int (price_min a)),
      (truthy_int (price_max a)), (truthy_number (Some (Float q))),
      (area_min a) as [[z|q']|], (truthy_int (rooms_min a)),
      (truthy_int (rooms_max a)).
    all: repeat match goal with
                | |- context [truthy_number ?x] => destruct (truthy_number x)
                end.
    all: reflexivity.
Qed.
End search_url.

(** * Further properties of the listing record *)

Section to_dict_props.

Lemma optional_int_inj (x y : option Z) :
  optional_int x = optional_int y → x = y.
Proof. destruct x, y; simpl; congruence. Qed.

Lemma PyDict_inj (d1 d2 : gmap string Q) : PyDict d1 = PyDict d2 → d1 = d2.
Proof. by intros [= ->]. Qed.

Lemma coordinates_dict_inj (c1 c2 : Coordinates) :
  ({[ "lat" := lat c1; "lon" := lon c1 ]} : gmap string Q)
  = {[ "lat" := lat c2; "lon" := lon c2 ]} →
  c1 = c2.
Proof.
  intros Heq.
  pose proof (f_equal (λ d, d !! "lat") Heq) as Hlat.
  pose proof (f_equal (λ d, d !! "lon") Heq) as Hlon.
  cbn beta in Hlat, Hlon.
  rewrite !lookup_insert_eq in Hlat.
  repeat (rewrite lookup_insert_ne in Hlon by discriminate).
  rewrite !lookup_singleton_eq in Hlon.
  clear Heq. injection Hlat as Hlat. injection Hlon as Hlon.
  destruct c1, c2. simpl in Hlat, Hlon. by rewrite Hlat, Hlon.
Qed.

#[local] Ltac lookup_key H key Hk :=
  pose proof (H key) as Hk;
  unfold to_dict in Hk;
  repeat (rewrite lookup_insert_ne in Hk by discriminate);
  rewrite ?lookup_insert_eq, ?lookup_singleton_eq in Hk;
  injection Hk as Hk.

(** X25: [to_dict] loses nothing: two listings with the same dictionary
    are the same listing, field by field, unset fields and coordinates
    included. *)
Theorem to_dict_loses_nothing (l1 l2 : PropertyData) :
  to_dict l1 = to_dict l2 → l1 = l2.
Proof.
  intros Heq.
  assert (∀ key, to_dict l1 !! key = to_dict l2 !! key) as Hkey
    by (intros key; by rewrite Heq).
  clear Heq.
  lookup_key Hkey "id" Hid.
  lookup_key Hkey "url" Hurl.
  lookup_key Hkey "price" Hprice.
  lookup_key Hkey "rooms" Hrooms.
  lookup_key Hkey "area" Harea.
  lookup_key Hkey "year_built" Hyear.
  lookup_key Hkey "condition" Hcond.
  lookup_key Hkey "story" Hstory.
  lookup_key Hkey "energy_label" Henergy.
  lookup_key Hkey "cost_summer" Hsummer.
  lookup_key Hkey "cost_winter" Hwinter.
  lookup_key Hkey "coordinates" Hcoord.
  lookup_key Hkey "description" Hdescr.
  clear Hkey.
  apply optional_int_inj in Hrooms, Hyear, Hcond, Hstory, Hsummer, Hwinter.
  destruct l1 as [i1 u1 p1 r1 a1 y1 c1 s1 e1 cs1 cw1 co1 d1],
           l2 as [i2 u2 p2 r2 a2 y2 c2 s2 e2 cs2 cw2 co2 d2].
  cbn [PropertyData.id PropertyData.url PropertyData.price PropertyData.rooms
       PropertyData.area PropertyData.year_built PropertyData.condition
       PropertyData.story PropertyData.energy_label PropertyData.cost_summer
       PropertyData.cost_winter PropertyData.coordinates
       PropertyData.description]
    in Hid, Hurl, Hprice, Hrooms, Harea, Hyear, Hcond, Hstory, Henergy,
       Hsummer, Hwinter, Hcoord, Hdescr.
  assert (a1 = a2) as Ha
    by (destruct a1, a2; try discriminate Harea; [by injection Harea as ->|done]).
  assert (e1 = e2) as He
    by (destruct e1, e2; try discriminate Henergy;
        [by injection Henergy as ->|done]).
  assert (d1 = d2) as Hd
    by (destruct d1, d2; try discriminate Hdescr;
        [by injection Hdescr as ->|done]).
  assert (co1 = co2) as Hco.
  { destruct co1 as [k1|], co2 as [k2|]; try discriminate Hcoord; [|done].
    apply PyDict_inj in Hcoord. f_equal. by apply coordinates_dict_inj. }
  by rewrite Hid, Hurl, Hprice, Hrooms, Ha, Hyear, Hcond, Hstory, He,
    Hsummer, Hwinter, Hco, Hd.
Qed.

Lemma to_dict_loses_nothing_witness : flat_1 = flat_1.
Proof. apply (to_dict_loses_nothing flat_1 flat_1). reflexivity. Defined.
End to_dict_props.
